(** * Real-time market data server (realtime/src/server.js)

    A shallow embedding of the Socket.IO market-data server: the
    subscription map, the polling timers, the tick callback with its two
    suspension points (the upstream fetch and the Redis write), and the
    health endpoint.  Every handler of the source is a function on an
    explicit server state; the event loop is a list of events folded over
    that state.

    Conventions.
    - A JS [Map] is a [gmap], a JS [Set] a [gset].  The enumeration order
      of a [gmap] is not the insertion order of a JS [Map]: it only shows
      in the order of console lines inside one disconnect and of the emits
      inside one publish.
    - [marketDataHandlers] and [pollingIntervals] are object literals: the
      [gmap] of each holds its own keys, and [table[assetType]] is
      [get_property], which goes on to [Object.prototype] when the name is
      not an own key.
    - Socket ids, asset types and symbols are strings; the subscription key
      is the string the template literal builds.
    - [intervals] is the runtime's table of timers created by [setInterval]
      and not yet cleared; [pollingTimers] is the module-level map of the
      source.  They are different things and are kept apart.
    - [redis] holds, for each cache key, the last value Redis accepted and
      the lifetime it was given.  Expiry is the clock's business and is
      not modelled.
    - [sent] and [console] record, in order, every message emitted and
      every line logged. *)

From Stdlib Require Import Ascii.
From stdpp Require Import gmap strings list fin_maps fin_sets.

Open Scope string_scope.
Open Scope list_scope.
#[local] Set Warnings "-register-all,-clear-no-such-hyp".

(** ** Payloads *)

(** What a tick can hold as its payload: the values [response.json()]
    produces and, last, the [String] object that [Object(symbol)] makes,
    which is truthy whatever the string and is written to Redis and sent
    as that string.  No upstream body is such an object.  Numbers are kept
    as integers: the server never computes with a payload, it only tests
    it for truthiness. *)
Inductive json : Type :=
  | JNull
  | JBool (b : bool)
  | JNum (n : Z)
  | JStr (s : string)
  | JArr (items : list json)
  | JObj (fields : list (string * json))
  | JBoxed (s : string).

(** The test of [if (data)] and of [if (data['Error Message'])]. *)
Definition truthy (v : json) : bool :=
  match v with
  | JNull => false
  | JBool b => b
  | JNum n => negb (n =? 0)%Z
  | JStr s => negb (String.eqb s "")
  | JArr _ => true
  | JObj _ => true
  | JBoxed _ => true
  end.

(** Property lookup on a parsed object, whose field names are distinct. *)
Fixpoint assoc (name : string) (fields : list (string * json)) : option json :=
  match fields with
  | [] => None
  | (k, v) :: rest => if String.eqb k name then Some v else assoc name rest
  end.

(** Why a tick ended in the [catch] block. *)
Inductive Failure : Type :=
  | NetworkError (msg : string)      (* fetch or response.json() rejected *)
  | NullBody                         (* data['Error Message'] on null *)
  | ProviderError (message : json)   (* throw new Error(data['Error Message']) *)
  | CacheError (msg : string)        (* redisClient.setEx rejected *)
  | NotAFunction                     (* handler(symbol), handler an object *)
  | NoReceiver (member : string).    (* a method of Object.prototype on undefined *)

(** What the upstream answered to one request. *)
Inductive Upstream : Type :=
  | Unreachable (msg : string)
  | Body (data : json).

(** What [await handler(symbol)] gives the tick. *)
Inductive Outcome : Type :=
  | Threw (why : Failure)
  | Returned (data : json).

(** [!apiKey]: the variable is unset or empty. *)
Definition no_key (apiKey : option string) : bool :=
  match apiKey with
  | None => true
  | Some k => String.eqb k ""
  end.

(** The part shared by the STOCK and FOREX handlers after the key test:
    fetch, parse, throw on ['Error Message'], return the body. *)
Definition alpha_vantage (up : Upstream) : Outcome :=
  match up with
  | Unreachable msg => Threw (NetworkError msg)
  | Body JNull => Threw NullBody
  | Body (JObj fields) =>
      match assoc "Error Message" fields with
      | Some e => if truthy e then Threw (ProviderError e) else Returned (JObj fields)
      | None => Returned (JObj fields)
      end
  | Body data => Returned data
  end.

Abbreviation Handler := (option string → Upstream → Outcome).

Definition STOCK : Handler := fun apiKey up =>
  if no_key apiKey then Returned JNull else alpha_vantage up.

Definition CRYPTO : Handler := fun _ up =>
  match up with
  | Unreachable msg => Threw (NetworkError msg)
  | Body data => Returned data
  end.

Definition FOREX : Handler := fun apiKey up =>
  if no_key apiKey then Returned JNull else alpha_vantage up.

Definition marketDataHandlers : gmap string Handler :=
  <["STOCK" := STOCK]> (<["CRYPTO" := CRYPTO]> (<["FOREX" := FOREX]> ∅)).

(** Milliseconds. *)
Definition pollingIntervals : gmap string Z :=
  <["STOCK" := 5000%Z]> (<["CRYPTO" := 3000%Z]> (<["FOREX" := 10000%Z]>
  (<["BOND" := 60000%Z]> (<["COMMODITY" := 30000%Z]> (<["INDEX" := 10000%Z]>
  (<["ETF" := 5000%Z]> (<["ATF" := 300000%Z]> (<["REAL_ESTATE" := 3600000%Z]> ∅)))))))).

(** ** Lookup in an object literal

    [table[name]] on an object literal finds the own key of that name and,
    when there is none, the member of [Object.prototype] of that name.
    These are the names [Object.prototype] has. *)
Definition object_prototype_members : list string :=
  ["constructor"; "__defineGetter__"; "__defineSetter__"; "hasOwnProperty";
   "__lookupGetter__"; "__lookupSetter__"; "isPrototypeOf"; "propertyIsEnumerable";
   "toString"; "valueOf"; "__proto__"; "toLocaleString"].

Inductive Property (A : Type) : Type :=
  | Own (v : A)                 (* a key of the literal *)
  | Inherited (name : string)   (* a member of Object.prototype *)
  | Undefined.

Arguments Own {A} v.
Arguments Inherited {A} name.
Arguments Undefined {A}.

Definition get_property {A : Type} (own : gmap string A) (name : string) : Property A :=
  match own !! name with
  | Some v => Own v
  | None =>
      if decide (name ∈ object_prototype_members) then Inherited name else Undefined
  end.

(** The value of [pollingIntervals[assetType] || 10000]: a number of
    milliseconds or, for an inherited name, the member found, which is an
    object and so truthy. *)
Inductive Interval : Type :=
  | Milliseconds (ms : Z)
  | Member (name : string).

Definition interval_value (assetType : string) : Interval :=
  match get_property pollingIntervals assetType with
  | Own i => if (i =? 0)%Z then Milliseconds 10000 else Milliseconds i
  | Inherited name => Member name
  | Undefined => Milliseconds 10000
  end.

(** The largest delay [setInterval] takes. *)
Definition TIMEOUT_MAX : Z := 2147483647.

(** The delay [setInterval] gives a timer: its second argument as a number,
    and 1 ms when that is not a number from 1 to [TIMEOUT_MAX].  A function
    or an object as a number is NaN. *)
Definition timer_delay (interval : Interval) : Z :=
  match interval with
  | Milliseconds ms => if ((1 <=? ms) && (ms <=? TIMEOUT_MAX))%Z then ms else 1%Z
  | Member _ => 1%Z
  end.

(** The delay of the timer [startPolling] creates for a class. *)
Definition interval_for (assetType : string) : Z :=
  timer_delay (interval_value assetType).

(** [handler(symbol)] where [handler] is the member of [Object.prototype] of
    this name, called without a receiver: [Object(symbol)] wraps the string;
    [toString] answers for [undefined]; [isPrototypeOf] answers [false] for
    an argument that is not an object; [__proto__] is [Object.prototype]
    itself, which cannot be called; the other members convert their
    receiver to an object first, and [undefined] has none. *)
Definition call_member (name symbol : string) : Outcome :=
  if String.eqb name "constructor" then Returned (JBoxed symbol)
  else if String.eqb name "toString" then Returned (JStr "[object Undefined]")
  else if String.eqb name "isPrototypeOf" then Returned (JBool false)
  else if String.eqb name "__proto__" then Threw NotAFunction
  else Threw (NoReceiver name).

(** An inherited member in the place of a fetch handler: it makes no
    request and reads no API key. *)
Definition member_handler (name symbol : string) : Handler :=
  fun _ _ => call_member name symbol.

(** [marketDataHandlers[assetType]] as the tick uses it, to be called with
    [symbol]; [None] stands for [undefined], the one result [!handler]
    stops at. *)
Definition find_handler (assetType symbol : string) : option Handler :=
  match get_property marketDataHandlers assetType with
  | Own handler => Some handler
  | Inherited name => Some (member_handler name symbol)
  | Undefined => None
  end.

(** The closed enumeration of the specification. *)
Definition asset_classes : list string :=
  ["STOCK"; "CRYPTO"; "FOREX"; "BOND"; "COMMODITY"; "INDEX"; "ETF"; "ATF"; "REAL_ESTATE"].

(** ** Server state *)

Definition subscriptionKey (assetType symbol : string) : string :=
  assetType +:+ ":" +:+ symbol.

Definition cacheKey (key : string) : string := "market_data:" +:+ key.

(** The closure of one [setInterval] callback and the delay it runs at. *)
Record Timer : Type := mkTimer {
  tm_assetType : string;
  tm_symbol : string;
  tm_interval : Z
}.

Definition tm_key (t : Timer) : string := subscriptionKey (tm_assetType t) (tm_symbol t).

(** Where a started tick is suspended. *)
Inductive Stage : Type :=
  | AwaitFetch (handler : Handler)
  | AwaitCache (data : json).

Record Tick : Type := mkTick {
  tk_assetType : string;
  tk_symbol : string;
  tk_stage : Stage
}.

Definition tk_key (t : Tick) : string := subscriptionKey (tk_assetType t) (tk_symbol t).

Inductive Msg : Type :=
  | Subscribed (assetType symbol : string)
  | Unsubscribed (assetType symbol : string)
  | MarketUpdate (assetType symbol : string) (data : json) (timestamp : string).

Inductive LogLine : Type :=
  | ClientConnected (id : string)
  | ClientDisconnected (id : string)
  | Subscribing (key : string)
  | Unsubscribing (key : string)
  | StartedPolling (key : string) (interval : Interval)
  | StoppedPolling (key : string)
  | NoHandler (assetType : string)
  | ErrorFetching (key : string) (why : Failure).

Record State : Type := mkState {
  subscriptions : gmap string (gset string);
  pollingTimers : gmap string nat;
  intervals : gmap nat Timer;
  nextHandle : nat;
  inflight : gmap nat Tick;
  nextTick : nat;
  redis : gmap string (json * Z);
  sent : list (string * Msg);
  console : list LogLine;
  clientsCount : nat;
  apiKey : option string
}.

Definition init (key : option string) : State :=
  mkState ∅ ∅ ∅ 0 ∅ 0 ∅ [] [] 0 key.

Definition set_subscriptions (f : gmap string (gset string) → gmap string (gset string))
    (s : State) : State :=
  mkState (f (subscriptions s)) (pollingTimers s) (intervals s) (nextHandle s)
    (inflight s) (nextTick s) (redis s) (sent s) (console s) (clientsCount s) (apiKey s).

Definition set_inflight (f : gmap nat Tick → gmap nat Tick) (s : State) : State :=
  mkState (subscriptions s) (pollingTimers s) (intervals s) (nextHandle s)
    (f (inflight s)) (nextTick s) (redis s) (sent s) (console s) (clientsCount s) (apiKey s).

Definition set_redis (f : gmap string (json * Z) → gmap string (json * Z)) (s : State) : State :=
  mkState (subscriptions s) (pollingTimers s) (intervals s) (nextHandle s)
    (inflight s) (nextTick s) (f (redis s)) (sent s) (console s) (clientsCount s) (apiKey s).

Definition set_clientsCount (f : nat → nat) (s : State) : State :=
  mkState (subscriptions s) (pollingTimers s) (intervals s) (nextHandle s)
    (inflight s) (nextTick s) (redis s) (sent s) (console s) (f (clientsCount s)) (apiKey s).

(** [console.log], [console.warn], [console.error] *)
Definition log (l : LogLine) (s : State) : State :=
  mkState (subscriptions s) (pollingTimers s) (intervals s) (nextHandle s)
    (inflight s) (nextTick s) (redis s) (sent s) (console s ++ [l]) (clientsCount s) (apiKey s).

(** [socket.emit] and [io.to(id).emit]: one message for socket [id]. *)
Definition emit (id : string) (m : Msg) (s : State) : State :=
  mkState (subscriptions s) (pollingTimers s) (intervals s) (nextHandle s)
    (inflight s) (nextTick s) (redis s) (sent s ++ [(id, m)]) (console s) (clientsCount s) (apiKey s).

(** ** Polling management *)

Definition startPolling (assetType symbol : string) (s : State) : State :=
  let key := subscriptionKey assetType symbol in
  let interval := interval_value assetType in
  let timer := nextHandle s in
  let s1 :=
    mkState (subscriptions s) (<[key := timer]> (pollingTimers s))
      (<[timer := mkTimer assetType symbol (timer_delay interval)]> (intervals s)) (S timer)
      (inflight s) (nextTick s) (redis s) (sent s) (console s) (clientsCount s) (apiKey s) in
  log (StartedPolling key interval) s1.

Definition stopPolling (key : string) (s : State) : State :=
  match pollingTimers s !! key with
  | Some timer =>
      let s1 :=
        mkState (subscriptions s) (delete key (pollingTimers s))
          (delete timer (intervals s)) (nextHandle s)
          (inflight s) (nextTick s) (redis s) (sent s) (console s) (clientsCount s) (apiKey s) in
      log (StoppedPolling key) s1
  | None => s
  end.

(** ** Socket handlers *)

(** [subscriptions.get(key)], the empty set standing for a missing entry
    where the source has just made sure there is one. *)
Definition subscribers_of (key : string) (s : State) : gset string :=
  default ∅ (subscriptions s !! key).

Definition on_connection (id : string) (s : State) : State :=
  log (ClientConnected id) s.

Definition on_subscribe (id assetType symbol : string) (s : State) : State :=
  let key := subscriptionKey assetType symbol in
  let s0 := log (Subscribing key) s in
  let s1 :=
    match subscriptions s0 !! key with
    | Some _ => s0
    | None => set_subscriptions (insert key ∅) s0
    end in
  let s2 := set_subscriptions (insert key (subscribers_of key s1 ∪ {[id]})) s1 in
  let s3 :=
    if decide (size (subscribers_of key s2) = 1)
    then startPolling assetType symbol s2
    else s2 in
  emit id (Subscribed assetType symbol) s3.

Definition on_unsubscribe (id assetType symbol : string) (s : State) : State :=
  let key := subscriptionKey assetType symbol in
  let s0 := log (Unsubscribing key) s in
  let s3 :=
    match subscriptions s0 !! key with
    | Some subscribers =>
        let s1 := set_subscriptions (insert key (subscribers ∖ {[id]})) s0 in
        if decide (size (subscribers_of key s1) = 0)
        then set_subscriptions (delete key) (stopPolling key s1)
        else s1
    | None => s0
    end in
  emit id (Unsubscribed assetType symbol) s3.

(** One turn of the loop over [subscriptions.entries()]. *)
Definition drop_from (id : string) (key : string) (subscribers : gset string)
    (s : State) : State :=
  let s1 := set_subscriptions (insert key (subscribers ∖ {[id]})) s in
  if decide (size (subscribers ∖ {[id]}) = 0)
  then set_subscriptions (delete key) (stopPolling key s1)
  else s1.

Definition on_disconnect (id : string) (s : State) : State :=
  let s0 := log (ClientDisconnected id) s in
  map_fold (drop_from id) s0 (subscriptions s0).

(** ** The tick callback

    The callback of [setInterval] is an async function with two awaits.
    Between them any other handler may run, so a tick is three events: the
    timer fires, the handler settles, the Redis write settles. *)

(** What Redis answered to [setEx]. *)
Inductive CacheReply : Type :=
  | Stored
  | Rejected (msg : string).

(** The interval fires: look the handler up and call it.  A handle that
    was cleared fires no more.  A handler that answers at once (no API key,
    an inherited member) is settled by the next [FetchSettles] of the tick
    like any other. *)
Definition timer_fires (timer : nat) (s : State) : State :=
  match intervals s !! timer with
  | Some t =>
      match find_handler (tm_assetType t) (tm_symbol t) with
      | Some handler =>
          mkState (subscriptions s) (pollingTimers s) (intervals s) (nextHandle s)
            (<[nextTick s := mkTick (tm_assetType t) (tm_symbol t) (AwaitFetch handler)]> (inflight s))
            (S (nextTick s)) (redis s) (sent s) (console s) (clientsCount s) (apiKey s)
      | None => log (NoHandler (tm_assetType t)) s
      end
  | None => s
  end.

(** [await handler(symbol)] settles; on truthy data [setEx] is issued. *)
Definition fetch_settles (i : nat) (up : Upstream) (s : State) : State :=
  match inflight s !! i with
  | Some (mkTick assetType symbol (AwaitFetch handler)) =>
      match handler (apiKey s) up with
      | Returned data =>
          if truthy data
          then set_inflight (insert i (mkTick assetType symbol (AwaitCache data))) s
          else set_inflight (delete i) s
      | Threw why =>
          log (ErrorFetching (subscriptionKey assetType symbol) why) (set_inflight (delete i) s)
      end
  | _ => s
  end.

Definition emit_all (ids : list string) (m : Msg) (s : State) : State :=
  foldl (fun st id => emit id m st) s ids.

(** The emit loop: the subscriber set is read now, not when the tick began. *)
Definition publish (assetType symbol : string) (data : json) (now : string)
    (s : State) : State :=
  match subscriptions s !! subscriptionKey assetType symbol with
  | Some subscribers =>
      emit_all (elements subscribers) (MarketUpdate assetType symbol data now) s
  | None => s
  end.

(** [await redisClient.setEx(key, 60, value)] settles; then the emit loop. *)
Definition cache_settles (i : nat) (reply : CacheReply) (now : string) (s : State) : State :=
  match inflight s !! i with
  | Some (mkTick assetType symbol (AwaitCache data)) =>
      let key := subscriptionKey assetType symbol in
      let s1 := set_inflight (delete i) s in
      match reply with
      | Stored =>
          publish assetType symbol data now
            (set_redis (insert (cacheKey key) (data, 60%Z)) s1)
      | Rejected msg => log (ErrorFetching key (CacheError msg)) s1
      end
  | _ => s
  end.

(** ** Health endpoint *)

Record Health : Type := mkHealth {
  status : string;
  timestamp : string;
  connections : nat
}.

Definition health (now : string) (s : State) : Health :=
  mkHealth "healthy" now (clientsCount s).

(** ** The event loop *)

Inductive Event : Type :=
  | Connection (id : string)
  | Subscribe (id assetType symbol : string)
  | Unsubscribe (id assetType symbol : string)
  | Disconnect (id : string)
  | TimerFires (timer : nat)
  | FetchSettles (i : nat) (up : Upstream)
  | CacheSettles (i : nat) (reply : CacheReply) (now : string).

(** [clientsCount] stands for [io.engine.clientsCount], which Engine.IO
    keeps: one more when a client opens, one less when it closes, before the
    handlers of the server run. *)
Definition step (s : State) (e : Event) : State :=
  match e with
  | Connection id => on_connection id (set_clientsCount S s)
  | Subscribe id assetType symbol => on_subscribe id assetType symbol s
  | Unsubscribe id assetType symbol => on_unsubscribe id assetType symbol s
  | Disconnect id => on_disconnect id (set_clientsCount pred s)
  | TimerFires timer => timer_fires timer s
  | FetchSettles i up => fetch_settles i up s
  | CacheSettles i reply now => cache_settles i reply now s
  end.

Definition run (es : list Event) (s : State) : State := foldl step s es.

Definition reachable (s : State) : Prop :=
  ∃ key es, s = run es (init key).

(** The messages a step appended to the outbox. *)
Definition new_messages (before after : State) : list (string * Msg) :=
  drop (length (sent before)) (sent after).

(** ** The registry invariant *)

(** What holds of the two module-level maps and the runtime's timer table
    between any two events. *)
Record registry_inv (s : State) : Prop := mkInv {
  inv_dom : ∀ k, is_Some (pollingTimers s !! k) ↔ is_Some (subscriptions s !! k);
  inv_nonempty : ∀ k X, subscriptions s !! k = Some X → X ≠ ∅;
  inv_live : ∀ k h, pollingTimers s !! k = Some h →
    ∃ t, intervals s !! h = Some t ∧ tm_key t = k;
  inv_fresh : ∀ h, is_Some (intervals s !! h) → h < nextHandle s
}.

(** ** Predicates of the statements *)

(** What is left of a subscriber set once [id] is deleted: nothing when the
    set becomes empty (the entry is removed), the smaller set otherwise. *)
Definition strip (id : string) (X : gset string) : option (gset string) :=
  if decide (size (X ∖ {[id]}) = 0) then None else Some (X ∖ {[id]}).

(** The fields the disconnect loop leaves alone. *)
Definition same_outside_registry (s s' : State) : Prop :=
  inflight s' = inflight s ∧ nextTick s' = nextTick s ∧ redis s' = redis s ∧
  sent s' = sent s ∧ clientsCount s' = clientsCount s ∧ apiKey s' = apiKey s.

(** A step that only talks: the registry, the tick table and the cache
    are as before. *)
Definition only_output (s s' : State) : Prop :=
  subscriptions s' = subscriptions s ∧ pollingTimers s' = pollingTimers s ∧
  intervals s' = intervals s ∧ nextHandle s' = nextHandle s ∧
  inflight s' = inflight s ∧ nextTick s' = nextTick s ∧
  redis s' = redis s ∧ clientsCount s' = clientsCount s ∧ apiKey s' = apiKey s.

(** The registry part of the state. *)
Definition same_registry (s s' : State) : Prop :=
  subscriptions s' = subscriptions s ∧ pollingTimers s' = pollingTimers s ∧
  intervals s' = intervals s ∧ nextHandle s' = nextHandle s.

(** Every suspended tick was started by a timer whose class finds a
    handler, and tick numbers are handed out once. *)
Definition ticks_inv (s : State) : Prop :=
  ∀ i t, inflight s !! i = Some t →
    is_Some (find_handler (tk_assetType t) (tk_symbol t)) ∧ i < nextTick s.

(** The intervals that are running for a key. *)
Definition running_for (key : string) (s : State) : gmap nat Timer :=
  filter (λ ht, tm_key ht.2 = key) (intervals s).

(** C1 as the specification words it, a live timer being a running one:
    between any two events the keys that have a running interval are the
    keys with a non-empty subscriber set, and no key has two. *)
Definition running_timers_match_subscribers : Prop :=
  ∀ s : State, reachable s →
    (∀ k, running_for k s ≠ ∅ ↔ ∃ X, subscriptions s !! k = Some X ∧ X ≠ ∅) ∧
    (∀ k, (size (running_for k s) ≤ 1)%nat).

(** C2 as the specification words it: a tick is suspended; an event makes
    [stopPolling] run for its key; whatever happens next, the completion
    of that tick sends nothing. *)
Definition stale_result_never_delivered : Prop :=
  ∀ (s : State) (e : Event) (i : nat) (t : Tick) (es : list Event)
    (reply : CacheReply) (now : string),
    reachable s →
    inflight s !! i = Some t →
    is_Some (pollingTimers s !! tk_key t) →
    pollingTimers (step s e) !! tk_key t = None →
    let before := run es (step s e) in
    new_messages before (cache_settles i reply now before) = [].

(** The messages of a list that are addressed to one socket. *)
Definition addressed_to (id : string) (l : list (string * Msg)) : list (string * Msg) :=
  filter (λ p, p.1 = id) l.

(** C3 as the specification words it: the fetch of a suspended tick
    succeeds, its handler returning a truthy payload; then, whatever Redis
    answers, each socket subscribed to the key when the tick ends is sent
    exactly one update with that payload. *)
Definition successful_fetch_reaches_subscribers : Prop :=
  ∀ (s : State) (i : nat) (assetType symbol : string) (handler : Handler)
    (up : Upstream) (data : json) (reply : CacheReply) (now id : string),
    reachable s →
    inflight s !! i = Some (mkTick assetType symbol (AwaitFetch handler)) →
    handler (apiKey s) up = Returned data → truthy data = true →
    let s1 := fetch_settles i up s in
    id ∈ subscribers_of (subscriptionKey assetType symbol) s1 →
    addressed_to id (new_messages s1 (cache_settles i reply now s1)) =
      [(id, MarketUpdate assetType symbol data now)].

(** The socket sends no subscribe request in this event. *)
Definition not_subscribe_by (id : string) (e : Event) : Prop :=
  match e with
  | Subscribe id' _ _ => id' ≠ id
  | _ => True
  end.

(** The socket is in no subscriber set. *)
Definition absent (id : string) (s : State) : Prop :=
  ∀ k X, subscriptions s !! k = Some X → id ∉ X.

(** The keys a socket is subscribed to.  The server stores no such set: it
    is read off [subscriptions] by a scan, as the disconnect loop does. *)
Definition keys_of (id : string) (s : State) : gset string :=
  dom (filter (λ kv, id ∈ kv.2) (subscriptions s)).

(** Some store of the server has an entry under this string: the two
    module-level maps and the cache are all the string-keyed stores. *)
Definition has_entry_under (x : string) (s : State) : Prop :=
  x ∈ dom (subscriptions s) ∨ x ∈ dom (pollingTimers s) ∨ x ∈ dom (redis s).

(** C4 as the specification words it: besides the index from keys to
    connections there is a stored index from connections to keys, so a
    subscribed connection has an entry of its own. *)
Definition connection_index_materialized : Prop :=
  ∀ (s : State) (id key : string),
    reachable s → id ∈ subscribers_of key s → has_entry_under id s.

(** C5 as the specification words it: a subscribe request whose class is
    not one of the nine is rejected, so no timer is created for it and no
    ['subscribed'] message is sent. *)
Definition invalid_class_rejected : Prop :=
  ∀ (s : State) (id assetType symbol : string),
    reachable s → assetType ∉ asset_classes →
    let s' := on_subscribe id assetType symbol s in
    pollingTimers s' = pollingTimers s ∧ intervals s' = intervals s ∧
    (id, Subscribed assetType symbol) ∉ new_messages s s'.

(** C8 as the specification words it: the entry written for a key lives
    twice the poll interval of the key's class (in seconds). *)
Definition ttl_is_twice_interval : Prop :=
  ∀ (s : State) (i : nat) (assetType symbol : string) (data : json) (now : string),
    reachable s →
    inflight s !! i = Some (mkTick assetType symbol (AwaitCache data)) →
    redis (cache_settles i Stored now s) !! cacheKey (subscriptionKey assetType symbol)
      = Some (data, (2 * interval_for assetType / 1000)%Z).

(** C9 as the specification words it: the number of active polling tasks
    can be read off the response. *)
Definition health_reports_polling_tasks : Prop :=
  ∃ tasks : Health → nat,
    ∀ (now : string) (s : State), reachable s → tasks (health now s) = size (pollingTimers s).





(** ** Further predicates and the code around the handlers *)

(** The string has a colon in it. *)
Fixpoint has_colon (x : string) : bool :=
  match x with
  | EmptyString => false
  | String c rest => if Ascii.eqb c ":"%char then true else has_colon rest
  end.

(** Every live interval is the one [pollingTimers] records for its key:
    no interval runs that [stopPolling] could not find. *)
Definition tidy (s : State) : Prop :=
  ∀ h t, intervals s !! h = Some t → pollingTimers s !! tm_key t = Some h.

(** Along the run no socket sends a subscribe request for a key it is
    already subscribed to. *)
Fixpoint no_resubscribe (es : list Event) (s : State) : Prop :=
  match es with
  | [] => True
  | e :: rest =>
      match e with
      | Subscribe id assetType symbol =>
          id ∉ subscribers_of (subscriptionKey assetType symbol) s
      | _ => True
      end ∧ no_resubscribe rest (step s e)
  end.

(** The loop of the SIGTERM handler:
    [for (const timer of pollingTimers.values()) clearInterval(timer)].
    The map itself is left as it is. *)
Definition clear_registered_timers (s : State) : State :=
  map_fold (λ _ timer st,
      mkState (subscriptions st) (pollingTimers st) (delete timer (intervals st))
        (nextHandle st) (inflight st) (nextTick st) (redis st) (sent st)
        (console st) (clientsCount st) (apiKey st))
    s (pollingTimers s).

(** What a timer of this class and symbol can bring to the cache: a truthy
    payload of one of the three fetch handlers, the wrapped symbol that
    [Object] returns, or the string that [toString] returns. *)
Definition cacheable (assetType symbol : string) (data : json) : Prop :=
  truthy data = true ∧
  (is_Some (marketDataHandlers !! assetType) ∨
   (assetType = "constructor" ∧ data = JBoxed symbol) ∨
   (assetType = "toString" ∧ data = JStr "[object Undefined]")).

(** A tick waits for the handler its class finds, and then for Redis with
    a payload that handler can return. *)
Definition payloads_inv (s : State) : Prop :=
  ∀ i assetType symbol stage,
    inflight s !! i = Some (mkTick assetType symbol stage) →
    match stage with
    | AwaitFetch handler => find_handler assetType symbol = Some handler
    | AwaitCache data => cacheable assetType symbol data
    end.

(** What the cache may hold. *)
Definition cache_inv (s : State) : Prop :=
  ∀ ck v ttl, redis s !! ck = Some (v, ttl) →
    ttl = 60%Z ∧
    ∃ assetType symbol,
      ck = cacheKey (subscriptionKey assetType symbol) ∧ cacheable assetType symbol v.

(** *** The client (frontend/src/hooks/useWebSocket.js and
    frontend/src/components/RealTimeChart.jsx) *)

Definition maxReconnectAttempts : nat := 5.

(** [Math.min(1000 * Math.pow(2, reconnectAttempts.current), 30000)] *)
Definition reconnect_delay (attempts : nat) : Z :=
  Z.min (1000 * 2 ^ Z.of_nat attempts) 30000.

(** The test of the client's disconnect handler before it schedules a
    reconnect. *)
Definition should_reconnect (reason : string) (attempts : nat) : bool :=
  negb (String.eqb reason "io client disconnect") && Nat.ltb attempts maxReconnectAttempts.

Definition maxDataPoints : nat := 50.

(** [setChartData(prev => [...prev, newDataPoint].slice(-maxDataPoints))] *)
Definition push_point {A : Type} (prev : list A) (newDataPoint : A) : list A :=
  let newData := prev ++ [newDataPoint] in
  drop (length newData - maxDataPoints) newData.

(** * Proofs *)

Lemma registry_inv_init key : registry_inv (init key).
Proof.
  split; simpl.
  - intros k. rewrite !lookup_empty. split; intros [? ?]; done.
  - intros k X. by rewrite lookup_empty.
  - intros k h. by rewrite lookup_empty.
  - intros h. rewrite lookup_empty. intros [? ?]; done.
Qed.

(** Two keys never share a timer handle. *)
Lemma registry_inv_inj s k1 k2 h :
  registry_inv s →
  pollingTimers s !! k1 = Some h → pollingTimers s !! k2 = Some h → k1 = k2.
Proof.
  intros Hinv H1 H2.
  destruct (inv_live s Hinv k1 h H1) as (t1 & Ht1 & <-).
  destruct (inv_live s Hinv k2 h H2) as (t2 & Ht2 & <-).
  congruence.
Qed.

Lemma size_zero_empty (X : gset string) : size X = 0 ↔ X = ∅.
Proof. rewrite size_empty_iff. by unfold_leibniz. Qed.

(** Setting a key to a non-empty set and (re)starting its timer. *)
Lemma registry_inv_start s assetType symbol X :
  registry_inv s → X ≠ ∅ →
  registry_inv (startPolling assetType symbol
    (set_subscriptions (insert (subscriptionKey assetType symbol) X) s)).
Proof.
  intros Hinv HX. set (key := subscriptionKey assetType symbol).
  split; simpl.
  - intros k. destruct (decide (key = k)) as [<-|Hne].
    + rewrite !lookup_insert_eq. split; eauto.
    + rewrite !lookup_insert_ne by done. apply Hinv.
  - intros k Y. destruct (decide (key = k)) as [<-|Hne].
    + rewrite lookup_insert_eq. congruence.
    + rewrite lookup_insert_ne by done. apply Hinv.
  - intros k h. destruct (decide (key = k)) as [<-|Hne].
    + rewrite lookup_insert_eq. intros [= <-]. rewrite lookup_insert_eq. eauto.
    + rewrite lookup_insert_ne by done. intros Hk.
      destruct (inv_live s Hinv k h Hk) as (t & Ht & Hkey).
      assert (h < nextHandle s) by (apply Hinv; eauto).
      rewrite lookup_insert_ne by lia. eauto.
  - intros h. destruct (decide (nextHandle s = h)) as [<-|Hne]; [lia|].
    rewrite lookup_insert_ne by done. intros Hh.
    assert (h < nextHandle s) by by apply Hinv. lia.
Qed.

(** Setting a key that already has a timer to a non-empty set. *)
Lemma registry_inv_keep s key X :
  registry_inv s → X ≠ ∅ → is_Some (subscriptions s !! key) →
  registry_inv (set_subscriptions (insert key X) s).
Proof.
  intros Hinv HX Hsome.
  split; simpl; [| |apply Hinv|apply Hinv].
  - intros k. destruct (decide (key = k)) as [<-|Hne].
    + rewrite lookup_insert_eq. split; [eauto|]. intros _. by apply Hinv.
    + rewrite lookup_insert_ne by done. apply Hinv.
  - intros k Y. destruct (decide (key = k)) as [<-|Hne].
    + rewrite lookup_insert_eq. congruence.
    + rewrite lookup_insert_ne by done. apply Hinv.
Qed.

(** Emptying a key: its timer is cleared and both entries go. *)
Lemma registry_inv_stop s key X :
  registry_inv s →
  registry_inv (set_subscriptions (delete key)
    (stopPolling key (set_subscriptions (insert key X) s))).
Proof.
  intros Hinv. unfold stopPolling. simpl.
  destruct (pollingTimers s !! key) as [h|] eqn:Hh; simpl.
  - split; simpl.
    + intros k. destruct (decide (key = k)) as [<-|Hne].
      * rewrite !lookup_delete_eq. split; intros [? ?]; done.
      * rewrite !lookup_delete_ne, lookup_insert_ne by done. apply Hinv.
    + intros k Y. destruct (decide (key = k)) as [<-|Hne].
      * by rewrite lookup_delete_eq.
      * rewrite lookup_delete_ne, lookup_insert_ne by done. apply Hinv.
    + intros k h'. destruct (decide (key = k)) as [<-|Hne].
      * by rewrite lookup_delete_eq.
      * rewrite lookup_delete_ne by done. intros Hk.
        destruct (inv_live s Hinv k h' Hk) as (t & Ht & Hkey).
        exists t. split; [|done].
        rewrite lookup_delete_ne; [done|].
        intros <-. apply Hne. eapply registry_inv_inj; eauto.
    + intros h'. destruct (decide (h = h')) as [<-|Hne].
      * rewrite lookup_delete_eq. intros [? ?]; done.
      * rewrite lookup_delete_ne by done. apply Hinv.
  - split; simpl; [| |apply Hinv|apply Hinv].
    + intros k. destruct (decide (key = k)) as [<-|Hne].
      * rewrite lookup_delete_eq, Hh. split; intros [? ?]; done.
      * rewrite lookup_delete_ne, lookup_insert_ne by done. apply Hinv.
    + intros k Y. destruct (decide (key = k)) as [<-|Hne].
      * by rewrite lookup_delete_eq.
      * rewrite lookup_delete_ne, lookup_insert_ne by done. apply Hinv.
Qed.

(** The invariant looks at four fields only. *)
Lemma registry_inv_ext s s' :
  subscriptions s' = subscriptions s → pollingTimers s' = pollingTimers s →
  intervals s' = intervals s → nextHandle s' = nextHandle s →
  registry_inv s → registry_inv s'.
Proof.
  intros H1 H2 H3 H4 [Ha Hb Hc Hd].
  split; rewrite ?H1, ?H2, ?H3, ?H4; done.
Qed.

Lemma registry_inv_log l s : registry_inv s → registry_inv (log l s).
Proof. apply registry_inv_ext; done. Qed.

Lemma registry_inv_emit id m s : registry_inv s → registry_inv (emit id m s).
Proof. apply registry_inv_ext; done. Qed.

Lemma registry_inv_clients f s : registry_inv s → registry_inv (set_clientsCount f s).
Proof. apply registry_inv_ext; done. Qed.

Create HintDb registry.
#[local] Hint Resolve registry_inv_init registry_inv_log registry_inv_emit
  registry_inv_clients : registry.

(** ** What the socket handlers do to the state *)

(** The subscribe handler in one piece: the new subscriber set of the key,
    a timer when that set has size one, the acknowledgment. *)
Lemma on_subscribe_unfold id assetType symbol s :
  on_subscribe id assetType symbol s =
    let key := subscriptionKey assetType symbol in
    let X := subscribers_of key s ∪ {[id]} in
    let s2 := set_subscriptions (insert key X) (log (Subscribing key) s) in
    emit id (Subscribed assetType symbol)
      (if decide (size X = 1) then startPolling assetType symbol s2 else s2).
Proof.
  unfold on_subscribe. cbv zeta.
  set (key := subscriptionKey assetType symbol).
  assert (Hs2 :
    set_subscriptions (insert key (subscribers_of key
        match subscriptions (log (Subscribing key) s) !! key with
        | Some _ => log (Subscribing key) s
        | None => set_subscriptions (insert key ∅) (log (Subscribing key) s)
        end ∪ {[id]}))
      match subscriptions (log (Subscribing key) s) !! key with
      | Some _ => log (Subscribing key) s
      | None => set_subscriptions (insert key ∅) (log (Subscribing key) s)
      end
    = set_subscriptions (insert key (subscribers_of key s ∪ {[id]}))
        (log (Subscribing key) s)).
  { unfold subscribers_of. simpl.
    destruct (subscriptions s !! key) as [X|] eqn:HX; simpl.
    - by rewrite HX.
    - unfold set_subscriptions. simpl.
      by rewrite lookup_insert_eq, insert_insert_eq. }
  rewrite Hs2.
  assert (Hsz : subscribers_of key (set_subscriptions
      (insert key (subscribers_of key s ∪ {[id]})) (log (Subscribing key) s))
    = subscribers_of key s ∪ {[id]}).
  { unfold subscribers_of at 1. simpl. by rewrite lookup_insert_eq. }
  by rewrite Hsz.
Qed.

Lemma on_subscribe_inv id assetType symbol s :
  registry_inv s → registry_inv (on_subscribe id assetType symbol s).
Proof.
  intros Hinv. rewrite on_subscribe_unfold. cbv zeta.
  set (key := subscriptionKey assetType symbol).
  set (X := subscribers_of key s ∪ {[id]}).
  assert (HX : X ≠ ∅) by (subst X; set_solver).
  assert (Hlog : registry_inv (log (Subscribing key) s)) by auto with registry.
  apply registry_inv_emit.
  case_decide as Hsize.
  - by apply registry_inv_start.
  - apply registry_inv_keep; [done..|].
    simpl. destruct (subscriptions s !! key) as [Y|] eqn:HY; [eauto|].
    exfalso. apply Hsize. subst X.
    assert (subscribers_of key s = ∅) as -> by (unfold subscribers_of; by rewrite HY).
    rewrite (left_id_L ∅ (∪)). apply size_singleton.
Qed.

Lemma on_unsubscribe_inv id assetType symbol s :
  registry_inv s → registry_inv (on_unsubscribe id assetType symbol s).
Proof.
  intros Hinv. unfold on_unsubscribe. cbv zeta.
  set (key := subscriptionKey assetType symbol).
  assert (Hlog : registry_inv (log (Unsubscribing key) s)) by auto with registry.
  apply registry_inv_emit.
  change (subscriptions (log (Unsubscribing key) s)) with (subscriptions s).
  destruct (subscriptions s !! key) as [X|] eqn:HX; [|done].
  assert (subscribers_of key (set_subscriptions (insert key (X ∖ {[id]}))
      (log (Unsubscribing key) s)) = X ∖ {[id]}) as ->.
  { unfold subscribers_of. simpl. by rewrite lookup_insert_eq. }
  case_decide as Hsize.
  - apply (registry_inv_stop _ key _ Hlog).
  - apply (registry_inv_keep _ key _ Hlog).
    + by rewrite <- size_zero_empty.
    + simpl. eauto.
Qed.

Lemma same_outside_refl s : same_outside_registry s s.
Proof. by repeat split. Qed.

Lemma same_outside_trans s1 s2 s3 :
  same_outside_registry s1 s2 → same_outside_registry s2 s3 →
  same_outside_registry s1 s3.
Proof.
  intros (?&?&?&?&?&?) (?&?&?&?&?&?). repeat split; congruence.
Qed.

Section DisconnectLoop.

(** The socket whose disconnect handler runs. *)
Variable id : string.

(** One turn of the disconnect loop on an entry of the map. *)
Lemma drop_from_inv key X s :
  registry_inv s → subscriptions s !! key = Some X →
  registry_inv (drop_from id key X s).
Proof.
  intros Hinv HX. unfold drop_from.
  case_decide as Hsize.
  - by apply registry_inv_stop.
  - apply registry_inv_keep; [done| |eauto].
    by rewrite <- size_zero_empty.
Qed.

Lemma drop_from_subscriptions key X s k :
  subscriptions (drop_from id key X s) !! k =
    if decide (key = k) then strip id X else subscriptions s !! k.
Proof.
  unfold drop_from, strip.
  destruct (decide (size (X ∖ {[id]}) = 0)); simpl.
  - assert (subscriptions (stopPolling key (set_subscriptions (insert key (X ∖ {[id]})) s))
      = <[key := X ∖ {[id]}]> (subscriptions s)) as ->.
    { unfold stopPolling. simpl. by destruct (pollingTimers s !! key). }
    case_decide as Hk; [subst; by rewrite lookup_delete_eq|].
    by rewrite lookup_delete_ne, lookup_insert_ne.
  - case_decide as Hk; [subst; by rewrite lookup_insert_eq|].
    by rewrite lookup_insert_ne.
Qed.

Lemma drop_from_outside key X s : same_outside_registry s (drop_from id key X s).
Proof.
  unfold drop_from, stopPolling, same_outside_registry.
  case_decide; simpl; [|done].
  destruct (pollingTimers s !! key); done.
Qed.

(** The whole loop, from any starting state [s] over any part [m] of its
    subscription map. *)
Lemma disconnect_loop s (m : gmap string (gset string)) :
  registry_inv s → m ⊆ subscriptions s →
  let s' := map_fold (drop_from id) s m in
  registry_inv s' ∧ same_outside_registry s s' ∧
  ∀ k, subscriptions s' !! k =
    match m !! k with Some X => strip id X | None => subscriptions s !! k end.
Proof.
  intros Hinv. cbv zeta.
  apply (map_fold_weak_ind (λ r m, m ⊆ subscriptions s →
    registry_inv r ∧ same_outside_registry s r ∧
    ∀ k, subscriptions r !! k =
      match m !! k with Some X => strip id X | None => subscriptions s !! k end)).
  - intros _. split; [done|]. split; [by repeat split|].
    intros k. by rewrite lookup_empty.
  - intros key X m' r Hkey IH Hsub.
    assert (Hm' : m' ⊆ subscriptions s).
    { etrans; [|exact Hsub]. by apply insert_subseteq. }
    destruct (IH Hm') as (Hr & Hout & Hlook).
    assert (HX : subscriptions r !! key = Some X).
    { rewrite Hlook, Hkey. eapply lookup_weaken; [|exact Hsub]. apply lookup_insert_eq. }
    split; [by apply drop_from_inv|]. split.
    + pose proof (drop_from_outside key X r) as Hd.
      destruct Hout as (?&?&?&?&?&?), Hd as (?&?&?&?&?&?).
      repeat split; congruence.
    + intros k. rewrite drop_from_subscriptions.
      case_decide as Hk; [subst; by rewrite lookup_insert_eq|].
      by rewrite lookup_insert_ne, Hlook.
Qed.

(** The same loop without the invariant: it never touches the ticks, the
    cache, the outboxes or the client count. *)
Lemma disconnect_loop_outside s (m : gmap string (gset string)) :
  same_outside_registry s (map_fold (drop_from id) s m).
Proof.
  apply (map_fold_weak_ind (λ r _, same_outside_registry s r)).
  - apply same_outside_refl.
  - intros key X _ r _ IH. eapply same_outside_trans; [exact IH|].
    apply drop_from_outside.
Qed.

End DisconnectLoop.

Lemma on_disconnect_inv id s :
  registry_inv s → registry_inv (on_disconnect id s).
Proof.
  intros Hinv. unfold on_disconnect. cbv zeta.
  apply disconnect_loop; [auto with registry|done].
Qed.

(** After the disconnect loop every entry is the old one without [id], and
    entries that became empty are gone. *)
Lemma on_disconnect_subscriptions id s k :
  registry_inv s →
  subscriptions (on_disconnect id s) !! k = subscriptions s !! k ≫= strip id.
Proof.
  intros Hinv. unfold on_disconnect. cbv zeta.
  set (s0 := log (ClientDisconnected id) s).
  assert (H0 : registry_inv s0) by (subst s0; auto with registry).
  destruct (disconnect_loop id s0 (subscriptions s0) H0) as (_ & _ & Hlook); [done|].
  rewrite Hlook. simpl. by destruct (subscriptions s !! k).
Qed.

(** ** What a tick does to the state *)

Lemma emit_all_sent ids m s :
  sent (emit_all ids m s) = sent s ++ ((λ id, (id, m)) <$> ids).
Proof.
  unfold emit_all. revert s.
  induction ids as [|id ids IH]; intros s; simpl.
  - by rewrite (right_id_L [] (++)).
  - rewrite IH. simpl. by rewrite <- (assoc_L (++)).
Qed.

Lemma emit_all_only_output ids m s : only_output s (emit_all ids m s).
Proof.
  unfold emit_all. revert s.
  induction ids as [|id ids IH]; intros s; simpl; [by repeat split|].
  destruct (IH (emit id m s)) as (?&?&?&?&?&?&?&?&?). by repeat split.
Qed.

Lemma publish_only_output assetType symbol data now s :
  only_output s (publish assetType symbol data now s).
Proof.
  unfold publish. destruct (subscriptions s !! _); [|by repeat split].
  apply emit_all_only_output.
Qed.

Lemma publish_sent assetType symbol data now s :
  sent (publish assetType symbol data now s) =
    sent s ++ ((λ id, (id, MarketUpdate assetType symbol data now)) <$>
      match subscriptions s !! subscriptionKey assetType symbol with
      | Some subscribers => elements subscribers
      | None => []
      end).
Proof.
  unfold publish. destruct (subscriptions s !! _).
  - apply emit_all_sent.
  - simpl. by rewrite (right_id_L [] (++)).
Qed.

Lemma same_registry_inv s s' : same_registry s s' → registry_inv s → registry_inv s'.
Proof. intros (?&?&?&?). by apply registry_inv_ext. Qed.

Lemma timer_fires_registry timer s : same_registry s (timer_fires timer s).
Proof.
  unfold timer_fires. destruct (intervals s !! timer) as [t|]; [|done].
  destruct (find_handler (tm_assetType t) (tm_symbol t)); done.
Qed.

Lemma fetch_settles_registry i up s : same_registry s (fetch_settles i up s).
Proof.
  unfold fetch_settles.
  destruct (inflight s !! i) as [[a sym [handler|data]]|]; [|done..].
  destruct (handler (apiKey s) up) as [why|data]; [done|].
  destruct (truthy data); done.
Qed.

Lemma cache_settles_registry i reply now s : same_registry s (cache_settles i reply now s).
Proof.
  unfold cache_settles.
  destruct (inflight s !! i) as [[a sym [handler|data]]|]; [done| |done].
  destruct reply as [|msg]; [|done].
  destruct (publish_only_output a sym data now
    (set_redis (insert (cacheKey (subscriptionKey a sym)) (data, 60%Z))
       (set_inflight (delete i) s))) as (?&?&?&?&_).
  by repeat split.
Qed.

Lemma step_inv s e : registry_inv s → registry_inv (step s e).
Proof.
  intros Hinv. destruct e as [id|id a sym|id a sym|id|timer|i up|i reply now]; simpl.
  - unfold on_connection. auto with registry.
  - by apply on_subscribe_inv.
  - by apply on_unsubscribe_inv.
  - apply on_disconnect_inv. auto with registry.
  - eapply same_registry_inv; [apply timer_fires_registry|done].
  - eapply same_registry_inv; [apply fetch_settles_registry|done].
  - eapply same_registry_inv; [apply cache_settles_registry|done].
Qed.

Lemma run_inv es s : registry_inv s → registry_inv (run es s).
Proof.
  unfold run. revert s. induction es as [|e es IH]; intros s Hinv; simpl; [done|].
  apply IH. by apply step_inv.
Qed.

Lemma reachable_inv s : reachable s → registry_inv s.
Proof. intros (key & es & ->). apply run_inv, registry_inv_init. Qed.

Lemma run_app es1 es2 s : run (es1 ++ es2) s = run es2 (run es1 s).
Proof. unfold run. apply foldl_app. Qed.

Lemma reachable_step s e : reachable s → reachable (step s e).
Proof.
  intros (key & es & ->). exists key, (es ++ [e]). by rewrite run_app.
Qed.

Lemma reachable_run es s : reachable s → reachable (run es s).
Proof.
  intros (key & es0 & ->). exists key, (es0 ++ es). by rewrite run_app.
Qed.

Lemma on_subscribe_outside id assetType symbol s :
  inflight (on_subscribe id assetType symbol s) = inflight s ∧
  nextTick (on_subscribe id assetType symbol s) = nextTick s ∧
  redis (on_subscribe id assetType symbol s) = redis s ∧
  apiKey (on_subscribe id assetType symbol s) = apiKey s.
Proof. rewrite on_subscribe_unfold. cbv zeta. by case_decide. Qed.

Lemma on_unsubscribe_outside id assetType symbol s :
  inflight (on_unsubscribe id assetType symbol s) = inflight s ∧
  nextTick (on_unsubscribe id assetType symbol s) = nextTick s ∧
  redis (on_unsubscribe id assetType symbol s) = redis s ∧
  apiKey (on_unsubscribe id assetType symbol s) = apiKey s.
Proof.
  unfold on_unsubscribe. cbv zeta. simpl.
  destruct (subscriptions s !! _) as [X|]; [|done].
  case_decide; [|done]. unfold stopPolling. simpl.
  by destruct (pollingTimers s !! _).
Qed.

Lemma on_disconnect_outside id s :
  inflight (on_disconnect id s) = inflight s ∧
  nextTick (on_disconnect id s) = nextTick s ∧
  redis (on_disconnect id s) = redis s ∧
  apiKey (on_disconnect id s) = apiKey s ∧
  sent (on_disconnect id s) = sent s ∧
  clientsCount (on_disconnect id s) = clientsCount s.
Proof.
  unfold on_disconnect. cbv zeta.
  destruct (disconnect_loop_outside id
    (log (ClientDisconnected id) s)
    (subscriptions (log (ClientDisconnected id) s)))
    as (?&?&?&?&?&?).
  by repeat split.
Qed.

Lemma step_ticks_inv s e : ticks_inv s → ticks_inv (step s e).
Proof.
  intros Hinv. destruct e as [id|id a sym|id a sym|id|timer|i up|i reply now]; simpl.
  - done.
  - destruct (on_subscribe_outside id a sym s) as (Hi & Hn & _).
    unfold ticks_inv. by rewrite Hi, Hn.
  - destruct (on_unsubscribe_outside id a sym s) as (Hi & Hn & _).
    unfold ticks_inv. by rewrite Hi, Hn.
  - destruct (on_disconnect_outside id (set_clientsCount pred s)) as (Hi & Hn & _).
    unfold ticks_inv. by rewrite Hi, Hn.
  - unfold timer_fires. destruct (intervals s !! timer) as [t|]; [|done].
    destruct (find_handler (tm_assetType t) (tm_symbol t)) as [handler|] eqn:Hh; [|done].
    intros i tk. simpl. destruct (decide (nextTick s = i)) as [<-|Hne].
    + rewrite lookup_insert_eq. intros [= <-]. simpl. split; [eauto|lia].
    + rewrite lookup_insert_ne by done. intros Hi.
      destruct (Hinv i tk Hi). split; [done|lia].
  - unfold fetch_settles.
    destruct (inflight s !! i) as [[a sym [handler|data]]|] eqn:Hi; [|done..].
    destruct (Hinv i _ Hi) as [Hh Hlt].
    assert (Hdel : ticks_inv (set_inflight (delete i) s)).
    { intros j tk. simpl. intros Hj. apply lookup_delete_Some in Hj as [_ Hj].
      by apply Hinv. }
    destruct (handler (apiKey s) up) as [why|data]; [done|].
    destruct (truthy data); [|done].
    intros j tk. simpl. destruct (decide (i = j)) as [<-|Hne].
    + rewrite lookup_insert_eq. by intros [= <-].
    + rewrite lookup_insert_ne by done. apply Hinv.
  - unfold cache_settles.
    destruct (inflight s !! i) as [[a sym [handler|data]]|] eqn:Hi; [done| |done].
    assert (Hdel : ticks_inv (set_inflight (delete i) s)).
    { intros j tk. simpl. intros Hj. apply lookup_delete_Some in Hj as [_ Hj].
      by apply Hinv. }
    destruct reply as [|msg]; [|done].
    destruct (publish_only_output a sym data now
      (set_redis (insert (cacheKey (subscriptionKey a sym)) (data, 60%Z))
         (set_inflight (delete i) s))) as (_&_&_&_&Hi'&Hn'&_).
    unfold ticks_inv. rewrite Hi', Hn'. exact Hdel.
Qed.

Lemma reachable_ticks_inv s : reachable s → ticks_inv s.
Proof.
  intros (key & es & ->).
  assert (H0 : ticks_inv (init key)) by (intros i t; simpl; by rewrite lookup_empty).
  unfold run. revert H0. generalize (init key).
  induction es as [|e es IH]; intros s Hs; simpl; [done|].
  apply IH. by apply step_ticks_inv.
Qed.

(** ** Timers and subscriber sets *)

(** What holds of the map [pollingTimers].  After any sequence of events
    on a fresh server (subscribe, unsubscribe and disconnect of any
    sockets, interleaved with timer firings and the completion of fetches
    and cache writes), the keys that have an entry in [pollingTimers] are
    exactly the keys whose subscriber set is non-empty; no empty subscriber
    set is stored; the entry of a key is one handle, it is a running
    interval that polls this very key, and no other key holds it.  This
    says nothing of the intervals the map has lost track of. *)
Lemma registered_timers_match_subscribers (key : option string) (es : list Event) :
  let s := run es (init key) in
  (∀ k, is_Some (pollingTimers s !! k) ↔
        ∃ X, subscriptions s !! k = Some X ∧ X ≠ ∅) ∧
  (∀ k X, subscriptions s !! k = Some X → X ≠ ∅) ∧
  (∀ k h1 h2, pollingTimers s !! k = Some h1 → pollingTimers s !! k = Some h2 →
        h1 = h2) ∧
  (∀ k h, pollingTimers s !! k = Some h →
        ∃ t, intervals s !! h = Some t ∧ tm_key t = k) ∧
  (∀ k1 k2 h, pollingTimers s !! k1 = Some h → pollingTimers s !! k2 = Some h →
        k1 = k2).
Proof.
  intros s.
  assert (Hinv : registry_inv s) by apply run_inv, registry_inv_init.
  split; [|split; [|split; [|split]]].
  - intros k. rewrite (inv_dom s Hinv k). split.
    + intros [X HX]. exists X. split; [done|]. by eapply inv_nonempty.
    + intros (X & HX & _). eauto.
  - apply Hinv.
  - congruence.
  - apply Hinv.
  - intros k1 k2 h. by apply registry_inv_inj.
Qed.

Lemma on_subscribe_subscriptions id assetType symbol s :
  subscriptions (on_subscribe id assetType symbol s) =
    <[subscriptionKey assetType symbol :=
        subscribers_of (subscriptionKey assetType symbol) s ∪ {[id]}]> (subscriptions s).
Proof. rewrite on_subscribe_unfold. cbv zeta. by case_decide. Qed.

Lemma on_subscribe_sent id assetType symbol s :
  sent (on_subscribe id assetType symbol s) = sent s ++ [(id, Subscribed assetType symbol)].
Proof. rewrite on_subscribe_unfold. cbv zeta. by case_decide. Qed.

(** ** Subscribing twice *)

(** The second of two identical subscribe requests: the subscriber sets do
    not change and the acknowledgment is sent again, but the test
    [size === 1] also holds when the socket is the only subscriber, and
    then [startPolling] runs a second time. *)
Lemma resubscribe id assetType symbol s :
  let key := subscriptionKey assetType symbol in
  let s1 := on_subscribe id assetType symbol s in
  let s2 := on_subscribe id assetType symbol s1 in
  subscriptions s2 = subscriptions s1 ∧
  sent s2 = sent s1 ++ [(id, Subscribed assetType symbol)] ∧
  if decide (size (subscribers_of key s1) = 1)
  then pollingTimers s2 = <[key := nextHandle s1]> (pollingTimers s1) ∧
       intervals s2 =
         <[nextHandle s1 := mkTimer assetType symbol (interval_for assetType)]>
           (intervals s1)
  else same_registry s1 s2.
Proof.
  cbv zeta. set (key := subscriptionKey assetType symbol).
  set (s1 := on_subscribe id assetType symbol s).
  assert (Hsome : subscriptions s1 !! key = Some (subscribers_of key s1)).
  { unfold subscribers_of. subst s1 key.
    by rewrite on_subscribe_subscriptions, lookup_insert_eq. }
  assert (Hin : id ∈ subscribers_of key s1).
  { unfold subscribers_of. subst s1 key.
    rewrite on_subscribe_subscriptions, lookup_insert_eq. simpl. set_solver. }
  assert (HX : subscribers_of key s1 ∪ {[id]} = subscribers_of key s1).
  { rewrite (comm_L (∪)). apply subseteq_union_1_L. by apply singleton_subseteq_l. }
  rewrite (on_subscribe_unfold id assetType symbol s1). cbv zeta.
  fold key. rewrite HX. clearbody s1.
  case_decide as Hsize; repeat split; simpl; rewrite ?insert_id by done; done.
Qed.

(** C7. On a fresh server the socket "a" subscribes to STOCK:AAPL twice in
    a row.  The subscriber set is the same as after one request and both
    requests are acknowledged, but two intervals are now running for the
    key: [pollingTimers] remembers only the second, so the unsubscribe that
    follows clears that one and leaves the first polling for ever. *)
Theorem second_subscribe_starts_second_timer :
  let once := run [Subscribe "a" "STOCK" "AAPL"] (init None) in
  let twice := run [Subscribe "a" "STOCK" "AAPL"; Subscribe "a" "STOCK" "AAPL"] (init None) in
  let after := step twice (Unsubscribe "a" "STOCK" "AAPL") in
  subscriptions twice = subscriptions once ∧
  subscriptions once = {[ "STOCK:AAPL" := {[ "a" ]} ]} ∧
  sent twice = [("a", Subscribed "STOCK" "AAPL"); ("a", Subscribed "STOCK" "AAPL")] ∧
  intervals once = {[ 0 := mkTimer "STOCK" "AAPL" 5000 ]} ∧
  intervals twice =
    {[ 0 := mkTimer "STOCK" "AAPL" 5000; 1 := mkTimer "STOCK" "AAPL" 5000 ]} ∧
  pollingTimers twice = {[ "STOCK:AAPL" := 1 ]} ∧
  subscriptions after = ∅ ∧ pollingTimers after = ∅ ∧
  intervals after = {[ 0 := mkTimer "STOCK" "AAPL" 5000 ]}.
Proof. cbv zeta. repeat split; by vm_compute. Qed.

(** C1. The set of keys with a running timer is not the set of keys with
    a non-empty subscriber set, and a key can have two running timers.  On
    a fresh server the socket "a" subscribes to STOCK:AAPL twice: the key
    has one subscriber and two running intervals.  The socket then
    unsubscribes: no key has a subscriber and [pollingTimers] is empty,
    yet interval 0 is still running for STOCK:AAPL, and when it fires it
    starts a fetch. *)
Theorem resubscribe_leaves_running_timer :
  let twice := run [Subscribe "a" "STOCK" "AAPL"; Subscribe "a" "STOCK" "AAPL"] (init None) in
  let after := step twice (Unsubscribe "a" "STOCK" "AAPL") in
  subscriptions twice = {[ "STOCK:AAPL" := {[ "a" ]} ]} ∧
  size (running_for "STOCK:AAPL" twice) = 2 ∧
  subscriptions after = ∅ ∧ pollingTimers after = ∅ ∧
  running_for "STOCK:AAPL" after = {[ 0 := mkTimer "STOCK" "AAPL" 5000 ]} ∧
  inflight (step after (TimerFires 0)) !! 0 =
    Some (mkTick "STOCK" "AAPL" (AwaitFetch STOCK)) ∧
  ¬ running_timers_match_subscribers.
Proof.
  cbv zeta.
  split; [by vm_compute|]. split; [by vm_compute|]. split; [by vm_compute|].
  split; [by vm_compute|]. split; [by vm_compute|]. split; [reflexivity|].
  intros H.
  destruct (H (run [Subscribe "a" "STOCK" "AAPL"; Subscribe "a" "STOCK" "AAPL"]
                 (init None))) as [_ Hone]; [by eexists _, _|].
  specialize (Hone "STOCK:AAPL").
  assert (Htwo : size (running_for "STOCK:AAPL"
    (run [Subscribe "a" "STOCK" "AAPL"; Subscribe "a" "STOCK" "AAPL"] (init None))) = 2)
    by by vm_compute.
  rewrite Htwo in Hone. lia.
Qed.

(** ** A fetch that completes after its key was stopped *)

(** C2 does not hold as worded.  Socket "a" subscribes to CRYPTO:btc and
    the timer fires; "a" unsubscribes, which stops the key; "b" subscribes to the same key; the
    fetch of the first timer now completes and its payload goes to "b". *)
Lemma stale_result_reaches_new_subscriber : ¬ stale_result_never_delivered.
Proof.
  intros H.
  specialize (H
    (run [Subscribe "a" "CRYPTO" "btc"; TimerFires 0] (init None))
    (Unsubscribe "a" "CRYPTO" "btc") 0
    (mkTick "CRYPTO" "btc" (AwaitFetch CRYPTO))
    [Subscribe "b" "CRYPTO" "btc";
     FetchSettles 0 (Body (JObj [("usd", JNum 42)]))]
    Stored "t1").
  assert (Hreach : reachable (run [Subscribe "a" "CRYPTO" "btc"; TimerFires 0] (init None)))
    by (eexists _, _; reflexivity).
  specialize (H Hreach eq_refl).
  assert (Hsome : is_Some (pollingTimers
      (run [Subscribe "a" "CRYPTO" "btc"; TimerFires 0] (init None))
      !! tk_key (mkTick "CRYPTO" "btc" (AwaitFetch CRYPTO))))
    by (exists 0; reflexivity).
  specialize (H Hsome eq_refl).
  vm_compute in H. discriminate H.
Qed.

(** C2, amended.  In a reachable state where the key of a suspended tick
    has no timer entry (it was stopped and nobody subscribed since), the
    key has no subscriber set either, and the completion of the tick, at
    either await, sends nothing and leaves subscriptions, timer entries and
    live intervals as they are.  The payload is still written to the
    cache when Redis accepts it. *)
Theorem stale_result_silent_while_stopped (s : State) (i : nat) (t : Tick)
    (up : Upstream) (reply : CacheReply) (now : string) :
  reachable s →
  inflight s !! i = Some t →
  pollingTimers s !! tk_key t = None →
  subscriptions s !! tk_key t = None ∧
  new_messages s (fetch_settles i up s) = [] ∧
  same_registry s (fetch_settles i up s) ∧
  new_messages s (cache_settles i reply now s) = [] ∧
  same_registry s (cache_settles i reply now s) ∧
  (∀ data, tk_stage t = AwaitCache data → reply = Stored →
     redis (cache_settles i reply now s) !! cacheKey (tk_key t) = Some (data, 60%Z)).
Proof.
  intros Hreach Hi Hstopped.
  pose proof (reachable_inv s Hreach) as Hinv.
  assert (Hnone : subscriptions s !! tk_key t = None).
  { destruct (subscriptions s !! tk_key t) as [X|] eqn:HX; [|done].
    assert (is_Some (pollingTimers s !! tk_key t)) as [h Hh] by (apply Hinv; eauto).
    congruence. }
  split; [done|]. split; [|split; [apply fetch_settles_registry|]].
  { unfold new_messages, fetch_settles. rewrite Hi.
    destruct t as [a sym [handler|data]]; simpl; [|apply drop_all].
    destruct (handler (apiKey s) up) as [why|data]; simpl; [apply drop_all|].
    destruct (truthy data); apply drop_all. }
  split; [|split; [apply cache_settles_registry|]].
  { unfold new_messages, cache_settles. rewrite Hi.
    destruct t as [a sym [handler|data]]; simpl; [apply drop_all|].
    destruct reply as [|msg]; simpl; [|apply drop_all].
    rewrite publish_sent. simpl. unfold tk_key in Hnone. simpl in Hnone.
    rewrite Hnone. simpl. rewrite (right_id_L [] (++)). apply drop_all. }
  intros data Hstage ->. unfold cache_settles. rewrite Hi.
  destruct t as [a sym stage]. simpl in Hstage. subst stage.
  destruct (publish_only_output a sym data now
    (set_redis (insert (cacheKey (subscriptionKey a sym)) (data, 60%Z))
       (set_inflight (delete i) s))) as (_&_&_&_&_&_&->&_).
  simpl. unfold tk_key. simpl. apply lookup_insert_eq.
Qed.

(** C2, amended, at work: "a" subscribed to CRYPTO:btc, the fetch returned,
    "a" unsubscribed; the cache write then completes for a stopped key. *)
Lemma stale_result_silent_while_stopped_witness :
  let s := run [Subscribe "a" "CRYPTO" "btc"; TimerFires 0;
                FetchSettles 0 (Body (JObj [("usd", JNum 42)]));
                Unsubscribe "a" "CRYPTO" "btc"] (init None) in
  let t := mkTick "CRYPTO" "btc" (AwaitCache (JObj [("usd", JNum 42)])) in
  subscriptions s !! tk_key t = None ∧
  new_messages s (fetch_settles 0 (Unreachable "x") s) = [] ∧
  same_registry s (fetch_settles 0 (Unreachable "x") s) ∧
  new_messages s (cache_settles 0 Stored "t1" s) = [] ∧
  same_registry s (cache_settles 0 Stored "t1" s) ∧
  (∀ data, tk_stage t = AwaitCache data → Stored = Stored →
     redis (cache_settles 0 Stored "t1" s) !! cacheKey (tk_key t) = Some (data, 60%Z)).
Proof.
  cbv zeta.
  apply (stale_result_silent_while_stopped _ 0
    (mkTick "CRYPTO" "btc" (AwaitCache (JObj [("usd", JNum 42)])))
    (Unreachable "x") Stored "t1").
  - eexists _, _; reflexivity.
  - reflexivity.
  - reflexivity.
Defined.

(** ** Fan-out *)

Lemma addressed_to_fan_out id m (ids : list string) :
  NoDup ids →
  addressed_to id ((λ x, (x, m)) <$> ids) = if decide (id ∈ ids) then [(id, m)] else [].
Proof.
  unfold addressed_to. induction 1 as [|x ids Hx Hnd IH].
  - by rewrite decide_False by (by intros ?%elem_of_nil).
  - rewrite fmap_cons. destruct (decide (x = id)) as [->|Hne].
    + rewrite filter_cons_True by done. rewrite IH.
      rewrite decide_False by done. rewrite decide_True by (by left). done.
    + rewrite filter_cons_False by done. rewrite IH.
      destruct (decide (id ∈ ids)) as [Hin|Hout].
      * rewrite decide_True by (by right). done.
      * rewrite decide_False; [done|].
        intros [?|?]%elem_of_cons; [congruence|done].
Qed.

Lemma strip_not_elem id X Y : strip id X = Some Y → id ∉ Y.
Proof. unfold strip. case_decide; [done|]. intros [= <-]. set_solver. Qed.

Lemma strip_subseteq id X Y : strip id X = Some Y → Y ⊆ X.
Proof. unfold strip. case_decide; [done|]. intros [= <-]. set_solver. Qed.

Lemma on_disconnect_absent id s : registry_inv s → absent id (on_disconnect id s).
Proof.
  intros Hinv k Y. rewrite on_disconnect_subscriptions by done.
  destruct (subscriptions s !! k) as [X|]; simpl; [|done].
  apply strip_not_elem.
Qed.

Lemma on_unsubscribe_subscriptions id assetType symbol s k :
  subscriptions (on_unsubscribe id assetType symbol s) !! k =
    if decide (subscriptionKey assetType symbol = k)
    then subscriptions s !! k ≫= strip id
    else subscriptions s !! k.
Proof.
  unfold on_unsubscribe. cbv zeta. simpl.
  set (key := subscriptionKey assetType symbol).
  destruct (subscriptions s !! key) as [X|] eqn:HX; simpl.
  - assert (subscribers_of key (set_subscriptions (insert key (X ∖ {[id]}))
        (log (Unsubscribing key) s)) = X ∖ {[id]}) as ->.
    { unfold subscribers_of. simpl. by rewrite lookup_insert_eq. }
    unfold strip.
    destruct (decide (size (X ∖ {[id]}) = 0)) as [Hz|Hz]; simpl.
    + assert (subscriptions (stopPolling key (set_subscriptions
          (insert key (X ∖ {[id]})) (log (Unsubscribing key) s)))
        = <[key := X ∖ {[id]}]> (subscriptions s)) as ->.
      { unfold stopPolling. simpl. by destruct (pollingTimers s !! key). }
      case_decide as Hk; [subst k; rewrite HX; simpl|].
      * rewrite decide_True by done. apply lookup_delete_eq.
      * by rewrite lookup_delete_ne, lookup_insert_ne.
    + case_decide as Hk; [subst k; rewrite HX; simpl|].
      * rewrite decide_False by done. apply lookup_insert_eq.
      * by rewrite lookup_insert_ne.
  - case_decide as Hk; [subst k; by rewrite HX|done].
Qed.

Lemma step_absent id s e :
  registry_inv s → not_subscribe_by id e → absent id s → absent id (step s e).
Proof.
  intros Hinv Hno Habs.
  destruct e as [id'|id' a sym|id' a sym|id'|timer|i up|i reply now]; simpl in *.
  - done.
  - intros k Y. rewrite on_subscribe_subscriptions.
    destruct (decide (subscriptionKey a sym = k)) as [<-|Hne].
    + rewrite lookup_insert_eq. intros [= <-]. unfold subscribers_of.
      destruct (subscriptions s !! subscriptionKey a sym) as [X|] eqn:HX; simpl.
      * specialize (Habs _ _ HX). set_solver.
      * set_solver.
    + rewrite lookup_insert_ne by done. apply Habs.
  - intros k Y. rewrite on_unsubscribe_subscriptions.
    case_decide; [|apply Habs].
    destruct (subscriptions s !! k) as [X|] eqn:HX; simpl; [|done].
    intros HY%strip_subseteq. specialize (Habs _ _ HX). set_solver.
  - intros k Y. rewrite on_disconnect_subscriptions by auto with registry.
    cbn [subscriptions set_clientsCount].
    destruct (subscriptions s !! k) as [X|] eqn:HX; simpl; [|done].
    intros HY%strip_subseteq. specialize (Habs _ _ HX). set_solver.
  - destruct (timer_fires_registry timer s) as (Hs & _).
    unfold absent. by rewrite Hs.
  - destruct (fetch_settles_registry i up s) as (Hs & _).
    unfold absent. by rewrite Hs.
  - destruct (cache_settles_registry i reply now s) as (Hs & _).
    unfold absent. by rewrite Hs.
Qed.

Lemma run_absent id es s :
  registry_inv s → Forall (not_subscribe_by id) es → absent id s →
  absent id (run es s).
Proof.
  unfold run. revert s.
  induction es as [|e es IH]; intros s Hinv Hno Habs; simpl; [done|].
  apply Forall_cons in Hno as [He Hes].
  apply IH; [by apply step_inv|done|by apply step_absent].
Qed.

(** C3 does not hold as worded.  Sockets "a" and "b" are subscribed to
    CRYPTO:btc, the fetch returns a price, and Redis rejects the write:
    the tick ends in the [catch] block and neither socket is sent
    anything. *)
Lemma rejected_write_reaches_no_subscriber :
  let s := run [Subscribe "a" "CRYPTO" "btc"; Subscribe "b" "CRYPTO" "btc";
                TimerFires 0] (init None) in
  let s1 := fetch_settles 0 (Body (JObj [("usd", JNum 42)])) s in
  CRYPTO (apiKey s) (Body (JObj [("usd", JNum 42)])) = Returned (JObj [("usd", JNum 42)]) ∧
  subscribers_of "CRYPTO:btc" s1 = {[ "a"; "b" ]} ∧
  new_messages s1 (cache_settles 0 (Rejected "ECONNREFUSED") "t0" s1) = [] ∧
  ¬ successful_fetch_reaches_subscribers.
Proof.
  cbv zeta. split; [reflexivity|]. split; [by vm_compute|]. split; [reflexivity|].
  intros H.
  specialize (H
    (run [Subscribe "a" "CRYPTO" "btc"; Subscribe "b" "CRYPTO" "btc"; TimerFires 0]
       (init None))
    0 "CRYPTO" "btc" CRYPTO (Body (JObj [("usd", JNum 42)])) (JObj [("usd", JNum 42)])
    (Rejected "ECONNREFUSED") "t0" "a").
  cbv zeta in H.
  assert (Hreach : reachable
    (run [Subscribe "a" "CRYPTO" "btc"; Subscribe "b" "CRYPTO" "btc"; TimerFires 0]
       (init None))) by (by eexists _, _).
  specialize (H Hreach eq_refl eq_refl eq_refl).
  assert (Hin : "a" ∈ subscribers_of (subscriptionKey "CRYPTO" "btc")
    (fetch_settles 0 (Body (JObj [("usd", JNum 42)]))
       (run [Subscribe "a" "CRYPTO" "btc"; Subscribe "b" "CRYPTO" "btc"; TimerFires 0]
          (init None)))).
  { assert (subscribers_of (subscriptionKey "CRYPTO" "btc")
      (fetch_settles 0 (Body (JObj [("usd", JNum 42)]))
         (run [Subscribe "a" "CRYPTO" "btc"; Subscribe "b" "CRYPTO" "btc"; TimerFires 0]
            (init None))) = {[ "a"; "b" ]}) as -> by by vm_compute.
    set_solver. }
  specialize (H Hin). vm_compute in H. discriminate H.
Qed.

(** C3, amended.  A fetch that returns sends nothing by itself: with a
    truthy payload the tick goes on to the Redis write, with a falsy one
    it is over.  The emit loop runs when Redis has stored the payload, and
    then the messages sent are [market_update]s of this fetch; a socket
    that is in the key's subscriber set at that moment gets exactly one of
    them, every other socket gets none.  In particular a socket that
    disconnected earlier and has not subscribed since gets none, whatever
    happened in between.  When Redis rejects the write the tick logs the
    failure and no socket is sent anything. *)
Theorem fan_out_after_cache_write (s : State) (i : nat) (assetType symbol : string)
    (data : json) (reply : CacheReply) (now : string) :
  inflight s !! i = Some (mkTick assetType symbol (AwaitCache data)) →
  let key := subscriptionKey assetType symbol in
  let out := new_messages s (cache_settles i reply now s) in
  (reply = Stored →
     (∀ p, p ∈ out → p.2 = MarketUpdate assetType symbol data now) ∧
     (∀ id, id ∈ subscribers_of key s →
        addressed_to id out = [(id, MarketUpdate assetType symbol data now)]) ∧
     (∀ id, id ∉ subscribers_of key s → addressed_to id out = []) ∧
     (∀ id s0 es, reachable s0 → Forall (not_subscribe_by id) es →
        s = run es (step s0 (Disconnect id)) → addressed_to id out = [])) ∧
  (∀ msg, reply = Rejected msg →
     out = [] ∧
     console (cache_settles i reply now s) = console s ++ [ErrorFetching key (CacheError msg)]) ∧
  (∀ s0 handler up payload,
     inflight s0 !! i = Some (mkTick assetType symbol (AwaitFetch handler)) →
     handler (apiKey s0) up = Returned payload →
     new_messages s0 (fetch_settles i up s0) = [] ∧
     inflight (fetch_settles i up s0) !! i =
       if truthy payload then Some (mkTick assetType symbol (AwaitCache payload)) else None).
Proof.
  intros Hi. cbv zeta.
  set (m := MarketUpdate assetType symbol data now).
  set (key := subscriptionKey assetType symbol).
  split; [|split].
  - intros ->.
    assert (Hout : new_messages s (cache_settles i Stored now s) =
      (λ x, (x, m)) <$> elements (subscribers_of key s)).
    { unfold new_messages, cache_settles. rewrite Hi. rewrite publish_sent. simpl.
      rewrite drop_app_length. unfold subscribers_of. fold key.
      destruct (subscriptions s !! key); simpl; [done|].
      by rewrite elements_empty. }
    rewrite Hout.
    assert (Hin : ∀ id, id ∈ subscribers_of key s →
      addressed_to id ((λ x, (x, m)) <$> elements (subscribers_of key s)) = [(id, m)]).
    { intros id Hid. rewrite addressed_to_fan_out by apply NoDup_elements.
      by rewrite decide_True by by apply elem_of_elements. }
    assert (Hnot : ∀ id, id ∉ subscribers_of key s →
      addressed_to id ((λ x, (x, m)) <$> elements (subscribers_of key s)) = []).
    { intros id Hid. rewrite addressed_to_fan_out by apply NoDup_elements.
      by rewrite decide_False by by rewrite elem_of_elements. }
    split; [|split; [done|split; [done|]]].
    + intros p (x & -> & _)%list_elem_of_fmap. done.
    + intros id s0 es Hreach Hes ->. apply Hnot.
      assert (Habs : absent id (run es (step s0 (Disconnect id)))).
      { apply reachable_inv in Hreach.
        assert (registry_inv (set_clientsCount pred s0)) by auto with registry.
        apply run_absent; [by apply on_disconnect_inv|done|by apply on_disconnect_absent]. }
      unfold subscribers_of.
      destruct (subscriptions (run es (step s0 (Disconnect id))) !! key) as [X|] eqn:HX; simpl.
      * by eapply Habs.
      * set_solver.
  - intros msg ->. unfold new_messages, cache_settles. rewrite Hi. simpl.
    split; [apply drop_all|done].
  - intros s0 handler up payload Hi0 Hup.
    unfold new_messages, fetch_settles. rewrite Hi0, Hup.
    destruct (truthy payload); simpl.
    + split; [apply drop_all|apply lookup_insert_eq].
    + split; [apply drop_all|apply lookup_delete_eq].
Qed.

(** C3, amended, at work: "a" and "b" watch CRYPTO:btc, "c" watches
    CRYPTO:eth; one fetch for btc, stored by Redis. *)
Lemma fan_out_after_cache_write_witness :
  let s := run [Subscribe "a" "CRYPTO" "btc"; Subscribe "b" "CRYPTO" "btc";
                Subscribe "c" "CRYPTO" "eth"; TimerFires 0;
                FetchSettles 0 (Body (JObj [("usd", JNum 42)]))] (init None) in
  let out := new_messages s (cache_settles 0 Stored "t0" s) in
  let m := MarketUpdate "CRYPTO" "btc" (JObj [("usd", JNum 42)]) "t0" in
  addressed_to "a" out = [("a", m)] ∧ addressed_to "b" out = [("b", m)] ∧
  addressed_to "c" out = [].
Proof.
  cbv zeta.
  pose proof (fan_out_after_cache_write
    (run [Subscribe "a" "CRYPTO" "btc"; Subscribe "b" "CRYPTO" "btc";
          Subscribe "c" "CRYPTO" "eth"; TimerFires 0;
          FetchSettles 0 (Body (JObj [("usd", JNum 42)]))] (init None))
    0 "CRYPTO" "btc" (JObj [("usd", JNum 42)]) Stored "t0" eq_refl) as (Hstored & _).
  destruct (Hstored eq_refl) as (_ & Hin & Hout & _).
  split; [|split].
  - apply Hin. by vm_compute.
  - apply Hin. by vm_compute.
  - apply Hout. by vm_compute.
Defined.

(** ** The subscription relation and its index *)

(** C4 does not hold as worded.  After socket "sockA" subscribed to
    STOCK:AAPL every entry of every store is under "STOCK:AAPL": nothing is
    stored under the socket id. *)
Lemma no_entry_under_connection : ¬ connection_index_materialized.
Proof.
  intros H.
  destruct (H (run [Subscribe "sockA" "STOCK" "AAPL"] (init None)) "sockA" "STOCK:AAPL")
    as [Hd|[Hd|Hd]].
  - eexists _, _; reflexivity.
  - by vm_compute.
  - by vm_compute in Hd.
  - by vm_compute in Hd.
  - by vm_compute in Hd.
Qed.

Lemma elem_of_keys_of id s k : k ∈ keys_of id s ↔ id ∈ subscribers_of k s.
Proof.
  unfold keys_of, subscribers_of. rewrite elem_of_dom. split.
  - intros [X [HX Hin]%map_lookup_filter_Some]. by rewrite HX.
  - destruct (subscriptions s !! k) as [X|] eqn:HX; simpl; [|set_solver].
    intros Hin. exists X. by apply map_lookup_filter_Some.
Qed.

Lemma elem_of_strip c id (o : option (gset string)) :
  c ∈ default ∅ (o ≫= strip id) ↔ c ∈ default ∅ o ∧ c ≠ id.
Proof.
  destruct o as [X|]; simpl; [|set_solver].
  unfold strip. case_decide as Hz; simpl; [|set_solver].
  apply size_zero_empty in Hz. set_solver.
Qed.

(** C4, amended.  The relation is stored once, as the map from keys to
    sets of socket ids; the keys of a socket are found by scanning it, so
    the two views agree by construction.  In every reachable state the
    handlers update the relation as a registry should: subscribe adds the
    pair, unsubscribe removes it, disconnect removes every pair of the
    socket and leaves it no key. *)
Theorem single_index_relation (s : State) (id assetType symbol : string) :
  reachable s →
  let key := subscriptionKey assetType symbol in
  (∀ c k, k ∈ keys_of c s ↔ c ∈ subscribers_of k s) ∧
  (∀ c k, c ∈ subscribers_of k (on_subscribe id assetType symbol s) ↔
          c ∈ subscribers_of k s ∨ (c = id ∧ k = key)) ∧
  (∀ c k, c ∈ subscribers_of k (on_unsubscribe id assetType symbol s) ↔
          c ∈ subscribers_of k s ∧ ¬ (c = id ∧ k = key)) ∧
  (∀ c k, c ∈ subscribers_of k (on_disconnect id s) ↔
          c ∈ subscribers_of k s ∧ c ≠ id) ∧
  keys_of id (on_disconnect id s) = ∅.
Proof.
  intros Hinv%reachable_inv. cbv zeta.
  set (key := subscriptionKey assetType symbol).
  assert (Hdis : ∀ c k, c ∈ subscribers_of k (on_disconnect id s) ↔
                        c ∈ subscribers_of k s ∧ c ≠ id).
  { intros c k. unfold subscribers_of.
    rewrite on_disconnect_subscriptions by done. apply elem_of_strip. }
  split; [|split; [|split; [|split]]].
  - intros c k. apply elem_of_keys_of.
  - intros c k. unfold subscribers_of at 1. rewrite on_subscribe_subscriptions.
    fold key. destruct (decide (key = k)) as [<-|Hne].
    + rewrite lookup_insert_eq. simpl. set_solver.
    + rewrite lookup_insert_ne by done. fold (subscribers_of k s). naive_solver.
  - intros c k. unfold subscribers_of at 1. rewrite on_unsubscribe_subscriptions.
    fold key. case_decide as Hk.
    + subst k. rewrite elem_of_strip. fold (subscribers_of key s). naive_solver.
    + fold (subscribers_of k s). naive_solver.
  - done.
  - apply set_eq. intros k. rewrite elem_of_keys_of, Hdis. set_solver.
Qed.

(** C4, amended, at work: "a" holds two keys, one shared with "b", and
    disconnects. *)
Lemma single_index_relation_witness :
  let s := run [Subscribe "a" "STOCK" "AAPL"; Subscribe "b" "STOCK" "AAPL";
                Subscribe "a" "CRYPTO" "btc"] (init None) in
  keys_of "a" (on_disconnect "a" s) = ∅.
Proof.
  cbv zeta.
  apply (single_index_relation
    (run [Subscribe "a" "STOCK" "AAPL"; Subscribe "b" "STOCK" "AAPL";
          Subscribe "a" "CRYPTO" "btc"] (init None)) "a" "STOCK" "AAPL").
  eexists _, _; reflexivity.
Defined.

(** ** Asset classes outside the enumeration *)

Lemma handlers_table assetType :
  is_Some (marketDataHandlers !! assetType) ↔
  assetType = "STOCK" ∨ assetType = "CRYPTO" ∨ assetType = "FOREX".
Proof.
  unfold marketDataHandlers. rewrite !lookup_insert_is_Some, lookup_empty.
  split.
  - intros [?|[_ [?|[_ [?|[_ [? ?]]]]]]]; naive_solver.
  - intros [-> | [-> | ->]].
    + by left.
    + right. split; [done|]. by left.
    + right. split; [done|]. right. split; [done|]. by left.
Qed.

Lemma intervals_outside_enumeration assetType :
  assetType ∉ asset_classes → pollingIntervals !! assetType = None.
Proof.
  intros Hout. unfold pollingIntervals.
  rewrite !lookup_insert_ne; [apply lookup_empty|..];
    intros <-; apply Hout; unfold asset_classes; set_solver.
Qed.

Lemma handlers_outside_enumeration assetType :
  assetType ∉ asset_classes → marketDataHandlers !! assetType = None.
Proof.
  intros Hout. apply eq_None_not_Some. rewrite handlers_table.
  intros [-> | [-> | ->]]; apply Hout; unfold asset_classes; set_solver.
Qed.

(** The names of [Object.prototype] are keys of neither literal. *)
Lemma members_not_own name :
  name ∈ object_prototype_members →
  pollingIntervals !! name = None ∧ marketDataHandlers !! name = None.
Proof.
  intros H%list_elem_of_In. simpl in H.
  repeat (destruct H as [<-|H]; [split; reflexivity|]). done.
Qed.

Lemma members_outside_enumeration name :
  name ∈ object_prototype_members → name ∉ asset_classes.
Proof.
  intros [Hn _]%members_not_own Hin%list_elem_of_In. simpl in Hin.
  repeat (destruct Hin as [<-|Hin]; [discriminate Hn|]). done.
Qed.

Lemma find_handler_own assetType symbol handler :
  marketDataHandlers !! assetType = Some handler →
  find_handler assetType symbol = Some handler.
Proof. intros Hh. unfold find_handler, get_property. by rewrite Hh. Qed.

Lemma find_handler_member name symbol :
  name ∈ object_prototype_members →
  find_handler name symbol = Some (member_handler name symbol).
Proof.
  intros Hin. unfold find_handler, get_property.
  destruct (members_not_own name Hin) as [_ ->]. by rewrite decide_True.
Qed.

Lemma find_handler_undefined assetType symbol :
  marketDataHandlers !! assetType = None → assetType ∉ object_prototype_members →
  find_handler assetType symbol = None.
Proof.
  intros Hh Hout. unfold find_handler, get_property. by rewrite Hh, decide_False.
Qed.

(** Where [marketDataHandlers[assetType]] finds something. *)
Lemma find_handler_cases assetType symbol handler :
  find_handler assetType symbol = Some handler ↔
  marketDataHandlers !! assetType = Some handler ∨
  (assetType ∈ object_prototype_members ∧ handler = member_handler assetType symbol).
Proof.
  split.
  - unfold find_handler, get_property.
    destruct (marketDataHandlers !! assetType) as [own|] eqn:Hh.
    + intros [= <-]. by left.
    + case_decide as Hin; [|done]. intros [= <-]. by right.
  - intros [Hh | [Hin ->]].
    + by apply find_handler_own.
    + by apply find_handler_member.
Qed.

Lemma find_handler_is_Some assetType symbol :
  is_Some (find_handler assetType symbol) ↔
  (assetType = "STOCK" ∨ assetType = "CRYPTO" ∨ assetType = "FOREX") ∨
  assetType ∈ object_prototype_members.
Proof.
  rewrite <- handlers_table. split.
  - intros [handler [Hh | [Hin _]]%find_handler_cases]; eauto.
  - intros [[handler Hh] | Hin].
    + exists handler. by apply find_handler_own.
    + rewrite find_handler_member by done. eauto.
Qed.

(** A timer for an inherited name gets the member as its interval, and
    [setInterval] runs it at 1 ms. *)
Lemma interval_value_member name :
  name ∈ object_prototype_members → interval_value name = Member name.
Proof.
  intros Hin. unfold interval_value, get_property.
  destruct (members_not_own name Hin) as [-> _]. by rewrite decide_True.
Qed.

Lemma interval_for_member name :
  name ∈ object_prototype_members → interval_for name = 1%Z.
Proof. intros Hin. unfold interval_for. by rewrite interval_value_member. Qed.

Lemma interval_for_undefined assetType :
  assetType ∉ asset_classes → assetType ∉ object_prototype_members →
  interval_for assetType = 10000%Z.
Proof.
  intros Hout Hmem. unfold interval_for, interval_value, get_property.
  by rewrite intervals_outside_enumeration, decide_False.
Qed.

(** C5 does not hold as worded.  Socket "a" subscribes to OPTION:SPY on
    a fresh server: a timer with the default interval is created and the
    request is acknowledged. *)
Lemma unknown_class_is_polled :
  ("OPTION" ∉ asset_classes) ∧
  pollingTimers (on_subscribe "a" "OPTION" "SPY" (init None)) = {[ "OPTION:SPY" := 0 ]} ∧
  intervals (on_subscribe "a" "OPTION" "SPY" (init None))
    = {[ 0 := mkTimer "OPTION" "SPY" 10000 ]} ∧
  sent (on_subscribe "a" "OPTION" "SPY" (init None)) = [("a", Subscribed "OPTION" "SPY")] ∧
  ¬ invalid_class_rejected.
Proof.
  assert (Hout : "OPTION" ∉ asset_classes).
  { unfold asset_classes. rewrite !not_elem_of_cons. repeat split; try done.
    apply not_elem_of_nil. }
  split; [done|]. split; [by vm_compute|]. split; [by vm_compute|]. split; [by vm_compute|].
  intros H. destruct (H (init None) "a" "OPTION" "SPY") as (Hp & _).
  - by exists None, [].
  - done.
  - by vm_compute in Hp.
Qed.

(** C5, amended.  The subscribe handler checks nothing: for every asset
    type, in or out of the enumeration, the socket is added to the key's
    subscriber set, the key has a live timer afterwards, and exactly one
    ['subscribed'] message goes back.  A key without subscribers gets a new
    timer.  For a class that is neither in the enumeration nor the name of
    a member of [Object.prototype] that timer has the default interval of
    10000 ms and finds no fetch handler: when it fires it logs a warning
    and does nothing else.  For a class that names a member of
    [Object.prototype] both lookups find that member: the timer is given
    it as its interval and runs at 1 ms, and its ticks call it in the
    place of a handler. *)
Theorem subscribe_accepts_any_class (s : State) (id assetType symbol : string) :
  reachable s →
  let key := subscriptionKey assetType symbol in
  let s' := on_subscribe id assetType symbol s in
  new_messages s s' = [(id, Subscribed assetType symbol)] ∧
  id ∈ subscribers_of key s' ∧
  (∃ h t, pollingTimers s' !! key = Some h ∧ intervals s' !! h = Some t ∧ tm_key t = key) ∧
  (subscriptions s !! key = None →
     pollingTimers s' !! key = Some (nextHandle s) ∧
     intervals s' !! nextHandle s = Some (mkTimer assetType symbol (interval_for assetType))) ∧
  (assetType ∉ asset_classes → (assetType ∉ object_prototype_members) →
     interval_for assetType = 10000%Z ∧ find_handler assetType symbol = None ∧
     (subscriptions s !! key = None →
        timer_fires (nextHandle s) s' = log (NoHandler assetType) s')) ∧
  (assetType ∈ object_prototype_members →
     (assetType ∉ asset_classes) ∧
     interval_value assetType = Member assetType ∧ interval_for assetType = 1%Z ∧
     find_handler assetType symbol = Some (member_handler assetType symbol)).
Proof.
  intros Hinv%reachable_inv. cbv zeta.
  set (key := subscriptionKey assetType symbol).
  assert (Hnew : subscriptions s !! key = None →
    pollingTimers (on_subscribe id assetType symbol s) !! key = Some (nextHandle s) ∧
    intervals (on_subscribe id assetType symbol s) !! nextHandle s
      = Some (mkTimer assetType symbol (interval_for assetType))).
  { intros Hnone. rewrite on_subscribe_unfold. cbv zeta. fold key.
    assert (subscribers_of key s = ∅) as -> by (unfold subscribers_of; by rewrite Hnone).
    rewrite (left_id_L ∅ (∪)), size_singleton. simpl.
    by rewrite !lookup_insert_eq. }
  split; [|split; [|split; [|split; [|split]]]].
  - unfold new_messages. by rewrite on_subscribe_sent, drop_app_length.
  - unfold subscribers_of. rewrite on_subscribe_subscriptions. fold key.
    rewrite lookup_insert_eq. simpl. set_solver.
  - pose proof (on_subscribe_inv id assetType symbol s Hinv) as Hinv'.
    assert (Hsome : is_Some (pollingTimers (on_subscribe id assetType symbol s) !! key)).
    { apply (inv_dom _ Hinv'). rewrite on_subscribe_subscriptions. fold key.
      rewrite lookup_insert_eq. eauto. }
    destruct Hsome as [h Hh].
    destruct (inv_live _ Hinv' key h Hh) as (t & Ht & Hkey). eauto.
  - done.
  - intros Hout Hmem.
    assert (Hnoh : find_handler assetType symbol = None)
      by (apply find_handler_undefined; [by apply handlers_outside_enumeration|done]).
    split; [by apply interval_for_undefined|]. split; [done|].
    intros Hnone. destruct (Hnew Hnone) as [_ Ht].
    unfold timer_fires. rewrite Ht. cbn [tm_assetType tm_symbol]. by rewrite Hnoh.
  - intros Hmem. split; [by apply members_outside_enumeration|].
    split; [by apply interval_value_member|].
    split; [by apply interval_for_member|by apply find_handler_member].
Qed.

(** C5, amended, at work: the class OPTION on a fresh server. *)
Lemma subscribe_accepts_any_class_witness :
  let s' := on_subscribe "a" "OPTION" "SPY" (init None) in
  new_messages (init None) s' = [("a", Subscribed "OPTION" "SPY")] ∧
  "a" ∈ subscribers_of "OPTION:SPY" s'.
Proof.
  cbv zeta.
  destruct (subscribe_accepts_any_class (init None) "a" "OPTION" "SPY") as (H1 & H2 & _).
  - by exists None, [].
  - split; [exact H1|exact H2].
Defined.

(** ** Upstream failures *)

(** The handler of a suspended tick throws, in any state and whatever ran
    since the timer fired: one line is logged, the tick is over, and that
    is all. *)
Lemma failed_fetch_anywhere s i assetType symbol handler up why :
  inflight s !! i = Some (mkTick assetType symbol (AwaitFetch handler)) →
  handler (apiKey s) up = Threw why →
  fetch_settles i up s =
    log (ErrorFetching (subscriptionKey assetType symbol) why)
      (set_inflight (delete i) s).
Proof. intros Hi Hup. unfold fetch_settles. by rewrite Hi, Hup. Qed.

(** One tick of a live timer whose handler throws: the [catch] block logs
    and nothing else changes, apart from the tick counter. *)
Lemma failing_tick s h t handler up why :
  intervals s !! h = Some t →
  find_handler (tm_assetType t) (tm_symbol t) = Some handler →
  handler (apiKey s) up = Threw why →
  let s' := run [TimerFires h; FetchSettles (nextTick s) up] s in
  redis s' = redis s ∧ same_registry s s' ∧ sent s' = sent s ∧
  apiKey s' = apiKey s ∧ nextTick s' = S (nextTick s) ∧
  console s' = console s ++ [ErrorFetching (tm_key t) why].
Proof.
  intros Ht Hh Hthrow. cbv zeta. unfold run. cbn [foldl step].
  unfold timer_fires. rewrite Ht, Hh.
  unfold fetch_settles. cbn [inflight apiKey]. rewrite lookup_insert_eq, Hthrow.
  by repeat split.
Qed.

(** C6. A live timer whose class has a handler ticks three times in a row
    and the handler throws each time (network error, a null body, or an
    ['Error Message'] from the provider).  After the first failure, and
    still after the third, the cache holds what it held before, nothing was
    sent, the subscriptions and the timer entries are the same, the timer
    is still live with the same interval, and each failure was logged with
    the key. *)
Theorem upstream_errors_keep_cache (s : State) (h : nat) (t : Timer)
    (handler : Handler) (up1 up2 up3 : Upstream) (w1 w2 w3 : Failure) :
  intervals s !! h = Some t →
  marketDataHandlers !! tm_assetType t = Some handler →
  handler (apiKey s) up1 = Threw w1 →
  handler (apiKey s) up2 = Threw w2 →
  handler (apiKey s) up3 = Threw w3 →
  let n := nextTick s in
  let s1 := run [TimerFires h; FetchSettles n up1] s in
  let s3 := run [TimerFires h; FetchSettles n up1;
                 TimerFires h; FetchSettles (S n) up2;
                 TimerFires h; FetchSettles (S (S n)) up3] s in
  (redis s1 = redis s ∧ sent s1 = sent s ∧ same_registry s s1 ∧
   console s1 = console s ++ [ErrorFetching (tm_key t) w1]) ∧
  (redis s3 = redis s ∧ sent s3 = sent s ∧ same_registry s s3 ∧
   intervals s3 !! h = Some t ∧
   console s3 = console s ++ [ErrorFetching (tm_key t) w1;
                              ErrorFetching (tm_key t) w2;
                              ErrorFetching (tm_key t) w3]).
Proof.
  intros Ht Hh%(find_handler_own _ (tm_symbol t)) H1 H2 H3. cbv zeta.
  destruct (failing_tick s h t handler up1 w1 Ht Hh H1)
    as (Hr1 & (Hs1 & Hp1 & Hi1 & Hn1) & Ho1 & Hk1 & Ht1 & Hc1).
  set (s1 := run [TimerFires h; FetchSettles (nextTick s) up1] s) in *.
  assert (Ht' : intervals s1 !! h = Some t) by by rewrite Hi1.
  assert (H2' : handler (apiKey s1) up2 = Threw w2) by by rewrite Hk1.
  destruct (failing_tick s1 h t handler up2 w2 Ht' Hh H2')
    as (Hr2 & (Hs2 & Hp2 & Hi2 & Hn2) & Ho2 & Hk2 & Ht2 & Hc2).
  rewrite Ht1 in Hr2, Hs2, Hp2, Hi2, Hn2, Ho2, Hk2, Ht2, Hc2.
  set (s2 := run [TimerFires h; FetchSettles (S (nextTick s)) up2] s1) in *.
  assert (Ht'' : intervals s2 !! h = Some t) by by rewrite Hi2.
  assert (H3' : handler (apiKey s2) up3 = Threw w3) by by rewrite Hk2, Hk1.
  destruct (failing_tick s2 h t handler up3 w3 Ht'' Hh H3')
    as (Hr3 & (Hs3 & Hp3 & Hi3 & Hn3) & Ho3 & Hk3 & Ht3 & Hc3).
  rewrite Ht2 in Hr3, Hs3, Hp3, Hi3, Hn3, Ho3, Hk3, Ht3, Hc3.
  set (s3 := run [TimerFires h; FetchSettles (S (S (nextTick s))) up3] s2) in *.
  assert (Hrun : run [TimerFires h; FetchSettles (nextTick s) up1;
                      TimerFires h; FetchSettles (S (nextTick s)) up2;
                      TimerFires h; FetchSettles (S (S (nextTick s))) up3] s = s3).
  { subst s3 s2 s1.
    change [TimerFires h; FetchSettles (nextTick s) up1;
            TimerFires h; FetchSettles (S (nextTick s)) up2;
            TimerFires h; FetchSettles (S (S (nextTick s))) up3]
      with ([TimerFires h; FetchSettles (nextTick s) up1] ++
            [TimerFires h; FetchSettles (S (nextTick s)) up2] ++
            [TimerFires h; FetchSettles (S (S (nextTick s))) up3]).
    by rewrite !run_app. }
  rewrite Hrun. clearbody s3 s2 s1.
  split; [by repeat split|].
  split; [congruence|]. split; [congruence|].
  split; [repeat split; congruence|]. split; [congruence|].
  rewrite Hc3, Hc2, Hc1. by rewrite <- !(assoc_L (++)).
Qed.

(** C6 at work: one good STOCK tick, then a network failure, a null body
    and a provider error in a row. *)
Lemma upstream_errors_keep_cache_witness :
  let s := run [Subscribe "a" "STOCK" "AAPL"; TimerFires 0;
                FetchSettles 0 (Body (JObj [("price", JNum 190)]));
                CacheSettles 0 Stored "t0"] (init (Some "demo")) in
  let s3 := run [TimerFires 0; FetchSettles 1 (Unreachable "ETIMEDOUT");
                 TimerFires 0; FetchSettles 2 (Body JNull);
                 TimerFires 0;
                 FetchSettles 3 (Body (JObj [("Error Message", JStr "Invalid API call")]))] s in
  redis s !! "market_data:STOCK:AAPL" = Some (JObj [("price", JNum 190)], 60%Z) ∧
  redis s3 = redis s ∧ sent s3 = sent s ∧ intervals s3 !! 0 = Some (mkTimer "STOCK" "AAPL" 5000).
Proof.
  cbv zeta. split; [reflexivity|].
  destruct (upstream_errors_keep_cache
    (run [Subscribe "a" "STOCK" "AAPL"; TimerFires 0;
          FetchSettles 0 (Body (JObj [("price", JNum 190)]));
          CacheSettles 0 Stored "t0"] (init (Some "demo")))
    0 (mkTimer "STOCK" "AAPL" 5000) STOCK
    (Unreachable "ETIMEDOUT") (Body JNull)
    (Body (JObj [("Error Message", JStr "Invalid API call")]))
    (NetworkError "ETIMEDOUT") NullBody (ProviderError (JStr "Invalid API call"))
    eq_refl eq_refl eq_refl eq_refl eq_refl) as (_ & Hr & Hs & _ & Hi & _).
  split; [exact Hr|]. split; [exact Hs|exact Hi].
Defined.

(** ** The lifetime of a cached snapshot *)

(** C8 does not hold as worded.  A successful STOCK tick for AAPL: the
    interval is 5 s, the entry is written with 60 s, not 10 s. *)
Lemma stock_ttl_is_sixty_not_ten :
  interval_for "STOCK" = 5000%Z ∧
  redis (run [Subscribe "a" "STOCK" "AAPL"; TimerFires 0;
              FetchSettles 0 (Body (JObj [("price", JNum 190)]));
              CacheSettles 0 Stored "t0"] (init (Some "demo")))
    !! "market_data:STOCK:AAPL" = Some (JObj [("price", JNum 190)], 60%Z) ∧
  ¬ ttl_is_twice_interval.
Proof.
  split; [reflexivity|]. split; [reflexivity|].
  intros H.
  specialize (H
    (run [Subscribe "a" "STOCK" "AAPL"; TimerFires 0;
          FetchSettles 0 (Body (JObj [("price", JNum 190)]))] (init (Some "demo")))
    0 "STOCK" "AAPL" (JObj [("price", JNum 190)]) "t0").
  assert (Hreach : reachable
    (run [Subscribe "a" "STOCK" "AAPL"; TimerFires 0;
          FetchSettles 0 (Body (JObj [("price", JNum 190)]))] (init (Some "demo"))))
    by (eexists _, _; reflexivity).
  specialize (H Hreach eq_refl).
  vm_compute in H. discriminate H.
Qed.

(** C8, amended.  Every payload that reaches the cache is stored under
    [market_data:<key>] for 60 seconds, whatever the class.  Only classes
    that find a handler ever reach the cache, and their poll intervals
    (5 s, 3 s, 10 s for the three fetch handlers, 1 ms for an inherited
    member) are shorter than that; the intervals of BOND, ATF and
    REAL_ESTATE are not. *)
Theorem snapshot_lives_sixty_seconds (s : State) (i : nat)
    (assetType symbol : string) (data : json) (now : string) :
  reachable s →
  inflight s !! i = Some (mkTick assetType symbol (AwaitCache data)) →
  redis (cache_settles i Stored now s) !! cacheKey (subscriptionKey assetType symbol)
    = Some (data, 60%Z) ∧
  (interval_for assetType < 60 * 1000)%Z ∧
  interval_for "BOND" = (60 * 1000)%Z ∧
  interval_for "ATF" = (300 * 1000)%Z ∧
  interval_for "REAL_ESTATE" = (3600 * 1000)%Z.
Proof.
  intros Hreach Hi. split; [|split; [|by repeat split]].
  - unfold cache_settles. rewrite Hi.
    destruct (publish_only_output assetType symbol data now
      (set_redis (insert (cacheKey (subscriptionKey assetType symbol)) (data, 60%Z))
         (set_inflight (delete i) s))) as (_&_&_&_&_&_&->&_).
    simpl. apply lookup_insert_eq.
  - destruct (reachable_ticks_inv s Hreach i _ Hi) as [Hh _]. simpl in Hh.
    apply find_handler_is_Some in Hh as [[-> | [-> | ->]] | Hm]; [by vm_compute..|].
    by rewrite interval_for_member.
Qed.

(** C8, amended, at work: a CRYPTO tick whose fetch has returned. *)
Lemma snapshot_lives_sixty_seconds_witness :
  redis (cache_settles 0 Stored "t0"
    (run [Subscribe "a" "CRYPTO" "btc"; TimerFires 0;
          FetchSettles 0 (Body (JObj [("usd", JNum 42)]))] (init None)))
    !! cacheKey (subscriptionKey "CRYPTO" "btc") = Some (JObj [("usd", JNum 42)], 60%Z) ∧
  (interval_for "CRYPTO" < 60 * 1000)%Z.
Proof.
  destruct (snapshot_lives_sixty_seconds
    (run [Subscribe "a" "CRYPTO" "btc"; TimerFires 0;
          FetchSettles 0 (Body (JObj [("usd", JNum 42)]))] (init None))
    0 "CRYPTO" "btc" (JObj [("usd", JNum 42)]) "t0") as (H1 & H2 & _).
  - eexists _, _; reflexivity.
  - reflexivity.
  - split; [exact H1|exact H2].
Defined.

(** ** The health endpoint *)

(** C9 does not hold as worded.  One connected client, before and after
    it subscribes: no timer, then one timer, and the same response. *)
Lemma health_hides_polling_tasks :
  health "t" (run [Connection "a"] (init None)) =
    health "t" (run [Connection "a"; Subscribe "a" "STOCK" "AAPL"] (init None)) ∧
  size (pollingTimers (run [Connection "a"] (init None))) = 0 ∧
  size (pollingTimers (run [Connection "a"; Subscribe "a" "STOCK" "AAPL"] (init None))) = 1 ∧
  ¬ health_reports_polling_tasks.
Proof.
  split; [reflexivity|]. split; [reflexivity|]. split; [reflexivity|].
  intros [tasks H].
  assert (H0 : tasks (health "t" (run [Connection "a"] (init None))) = 0).
  { rewrite H; [reflexivity|]. eexists _, _; reflexivity. }
  assert (H1 : tasks (health "t"
      (run [Connection "a"; Subscribe "a" "STOCK" "AAPL"] (init None))) = 1).
  { rewrite H; [reflexivity|]. eexists _, _; reflexivity. }
  change (health "t" (run [Connection "a"; Subscribe "a" "STOCK" "AAPL"] (init None)))
    with (health "t" (run [Connection "a"] (init None))) in H1.
  congruence.
Qed.

(** C9, amended.  The response carries the status ['healthy'], the time
    of the request and the number of connected clients, and nothing about
    polling: that number goes up with a connection and down with a
    disconnect, and no other event changes the response. *)
Theorem health_reports_connections (now : string) (s : State) (e : Event) :
  health now s = mkHealth "healthy" now (clientsCount s) ∧
  health now (step s e) =
    match e with
    | Connection _ => mkHealth "healthy" now (S (clientsCount s))
    | Disconnect _ => mkHealth "healthy" now (pred (clientsCount s))
    | _ => health now s
    end.
Proof.
  split; [done|]. unfold health.
  destruct e as [id|id a sym|id a sym|id|timer|i up|i reply tm]; cbn [step].
  - done.
  - rewrite on_subscribe_unfold. cbv zeta. by case_decide.
  - unfold on_unsubscribe. cbv zeta. simpl.
    destruct (subscriptions s !! _) as [X|]; [|done].
    case_decide; [|done]. unfold stopPolling. simpl.
    by destruct (pollingTimers s !! _).
  - by destruct (on_disconnect_outside id (set_clientsCount pred s)) as (_&_&_&_&_&->).
  - unfold timer_fires. destruct (intervals s !! timer) as [t|]; [|done].
    by destruct (find_handler (tm_assetType t) (tm_symbol t)).
  - unfold fetch_settles.
    destruct (inflight s !! i) as [[a sym [handler|data]]|]; [|done..].
    destruct (handler (apiKey s) up) as [why|data]; [done|].
    by destruct (truthy data).
  - unfold cache_settles.
    destruct (inflight s !! i) as [[a sym [handler|data]]|]; [done| |done].
    destruct reply as [|msg]; [|done].
    destruct (publish_only_output a sym data tm
      (set_redis (insert (cacheKey (subscriptionKey a sym)) (data, 60%Z))
         (set_inflight (delete i) s))) as (_&_&_&_&_&_&_&->&_).
    done.
Qed.

(** ** When a tick writes and publishes *)






(** * More of the server, and its client *)

(** ** Subscription keys *)

Lemma string_app_assoc (x y z : string) : (x +:+ y) +:+ z = x +:+ (y +:+ z).
Proof.
  induction x as [|c x IH]; [done|].
  change (String c ((x +:+ y) +:+ z) = String c (x +:+ (y +:+ z))).
  by rewrite IH.
Qed.

Lemma no_colon_prefix (a a' rest rest' : string) :
  has_colon a = false → has_colon a' = false →
  a +:+ String ":"%char rest = a' +:+ String ":"%char rest' →
  a = a' ∧ rest = rest'.
Proof.
  revert a'. induction a as [|c a IH]; intros [|c' a'] Ha Ha' Heq; simpl in *.
  - by injection Heq as ->.
  - injection Heq as <- _. by rewrite Ascii.eqb_refl in Ha'.
  - injection Heq as -> _. by rewrite Ascii.eqb_refl in Ha.
  - injection Heq as -> Heq.
    destruct (Ascii.eqb c' ":"%char); [done|].
    destruct (IH a' Ha Ha' Heq) as [-> ->]. done.
Qed.

(** X1. The key built by the template literal tells asset type and symbol
    apart as long as the asset types have no colon in them (none of the
    nine classes has); with a colon in the asset type two different pairs
    share one key. *)
Theorem subscriptionKey_inj_without_colon (a a' sym sym' b : string) :
  has_colon a = false → has_colon a' = false →
  (subscriptionKey a sym = subscriptionKey a' sym' → a = a' ∧ sym = sym') ∧
  subscriptionKey (a +:+ ":" +:+ b) sym = subscriptionKey a (b +:+ ":" +:+ sym) ∧
  Forall (λ c, has_colon c = false) asset_classes.
Proof.
  intros Ha Ha'. split; [|split].
  - unfold subscriptionKey. simpl. by apply no_colon_prefix.
  - unfold subscriptionKey. by rewrite !string_app_assoc.
  - unfold asset_classes. repeat constructor.
Qed.

(** X1 at work: two stock symbols. *)
Lemma subscriptionKey_inj_without_colon_witness :
  (subscriptionKey "STOCK" "AAPL" = subscriptionKey "STOCK" "MSFT" →
     "STOCK" = "STOCK" ∧ "AAPL" = "MSFT") ∧
  subscriptionKey ("STOCK" +:+ ":" +:+ "A") "B" = subscriptionKey "STOCK" ("A" +:+ ":" +:+ "B").
Proof.
  destruct (subscriptionKey_inj_without_colon "STOCK" "STOCK" "AAPL" "MSFT" "A")
    as (H1 & _ & _); [reflexivity|reflexivity|].
  destruct (subscriptionKey_inj_without_colon "STOCK" "STOCK" "B" "B" "A")
    as (_ & H2 & _); [reflexivity|reflexivity|].
  split; [exact H1|exact H2].
Defined.

(** ** Fetch handlers *)




(** X3. When a handler throws.  CRYPTO throws exactly when the request
    fails.  STOCK and FOREX with an API key throw exactly when the request
    fails, the body is null, or the body is an object with a truthy
    ['Error Message']; without an API key they return null and never
    throw, whatever the upstream would have said. *)
Theorem handlers_throw_exactly_when (key : option string) (up : Upstream) :
  ((∃ why, CRYPTO key up = Threw why) ↔ ∃ msg, up = Unreachable msg) ∧
  (no_key key = true → STOCK key up = Returned JNull ∧ FOREX key up = Returned JNull) ∧
  (no_key key = false →
     FOREX key up = STOCK key up ∧
     ((∃ why, STOCK key up = Threw why) ↔
        (∃ msg, up = Unreachable msg) ∨ up = Body JNull ∨
        ∃ fields e, up = Body (JObj fields) ∧
          assoc "Error Message" fields = Some e ∧ truthy e = true)).
Proof.
  split; [|split].
  - unfold CRYPTO. destruct up as [msg|body]; split.
    + eauto.
    + eauto.
    + by intros [? ?].
    + by intros [? ?].
  - intros Hk. unfold STOCK, FOREX. by rewrite Hk.
  - intros Hk. unfold STOCK, FOREX. rewrite Hk. split; [done|].
    unfold alpha_vantage. destruct up as [msg|body].
    { split; eauto. }
    destruct body as [|b|n|x|items|fields|boxed];
      try (split; [by intros [? ?]|by intros [[? ?]|[?|(?&?&?&?)]]]).
    + split; eauto.
    + destruct (assoc "Error Message" fields) as [e|] eqn:He.
      * destruct (truthy e) eqn:Hte.
        -- split; [|eauto]. intros _. right. right. by exists fields, e.
        -- split; [by intros [? ?]|].
           intros [[? ?]|[?|(f & e' & [= <-] & He' & Hte')]]; [done..|].
           congruence.
      * split; [by intros [? ?]|].
        intros [[? ?]|[?|(f & e' & [= <-] & He' & Hte')]]; [done..|].
        congruence.
Qed.

(** ** Leaving and joining a key *)

(** The unsubscribe handler does to its key what one turn of the
    disconnect loop does. *)
Lemma on_unsubscribe_unfold id assetType symbol s :
  on_unsubscribe id assetType symbol s =
    let key := subscriptionKey assetType symbol in
    emit id (Unsubscribed assetType symbol)
      match subscriptions s !! key with
      | Some X => drop_from id key X (log (Unsubscribing key) s)
      | None => log (Unsubscribing key) s
      end.
Proof.
  unfold on_unsubscribe. cbv zeta.
  set (key := subscriptionKey assetType symbol).
  change (subscriptions (log (Unsubscribing key) s)) with (subscriptions s).
  destruct (subscriptions s !! key) as [X|]; [|done].
  unfold drop_from.
  assert (subscribers_of key (set_subscriptions (insert key (X ∖ {[id]}))
      (log (Unsubscribing key) s)) = X ∖ {[id]}) as ->; [|done].
  unfold subscribers_of. simpl. by rewrite lookup_insert_eq.
Qed.

Lemma drop_from_timers id key X s :
  nextHandle (drop_from id key X s) = nextHandle s ∧
  pollingTimers (drop_from id key X s) =
    (if decide (size (X ∖ {[id]}) = 0) then delete key (pollingTimers s)
     else pollingTimers s) ∧
  intervals (drop_from id key X s) =
    (if decide (size (X ∖ {[id]}) = 0)
     then match pollingTimers s !! key with
          | Some h => delete h (intervals s)
          | None => intervals s
          end
     else intervals s).
Proof.
  unfold drop_from, stopPolling. case_decide; simpl; [|done].
  destruct (pollingTimers s !! key) as [h|] eqn:Hh; simpl; [done|].
  by rewrite delete_id.
Qed.

Lemma drop_from_sent id key X s : sent (drop_from id key X s) = sent s.
Proof. by destruct (drop_from_outside id key X s) as (_&_&_&->&_). Qed.

(** Subscribing to a key that others already hold: the set grows and no
    timer is touched. *)
Lemma on_subscribe_join id assetType symbol s X :
  subscriptions s !! subscriptionKey assetType symbol = Some X →
  size (X ∪ {[id]}) ≠ 1 →
  let s' := on_subscribe id assetType symbol s in
  pollingTimers s' = pollingTimers s ∧ intervals s' = intervals s ∧
  nextHandle s' = nextHandle s.
Proof.
  intros HX Hsize. cbv zeta. rewrite on_subscribe_unfold. cbv zeta.
  assert (subscribers_of (subscriptionKey assetType symbol) s = X) as ->
    by (unfold subscribers_of; by rewrite HX).
  by rewrite decide_False by done.
Qed.

(** Subscribing to a key nobody holds: one new timer under a new handle. *)
Lemma on_subscribe_first id assetType symbol s :
  subscriptions s !! subscriptionKey assetType symbol = None →
  let key := subscriptionKey assetType symbol in
  let s' := on_subscribe id assetType symbol s in
  pollingTimers s' = <[key := nextHandle s]> (pollingTimers s) ∧
  intervals s' =
    <[nextHandle s := mkTimer assetType symbol (interval_for assetType)]> (intervals s) ∧
  nextHandle s' = S (nextHandle s).
Proof.
  intros Hnone. cbv zeta. rewrite on_subscribe_unfold. cbv zeta.
  assert (subscribers_of (subscriptionKey assetType symbol) s = ∅) as ->
    by (unfold subscribers_of; by rewrite Hnone).
  rewrite (left_id_L ∅ (∪)), size_singleton. done.
Qed.

Lemma size_add_new (X : gset string) id : X ≠ ∅ → id ∉ X → size (X ∪ {[id]}) ≠ 1.
Proof.
  intros HX Hid. rewrite size_union by set_solver. rewrite size_singleton.
  assert (size X ≠ 0) by by rewrite size_zero_empty. lia.
Qed.

(** X4. Unsubscribing from a key the socket does not hold, whether the key
    exists or not, changes no subscriber set and no timer; the
    ['unsubscribed'] message is sent all the same. *)
Theorem unsubscribe_without_subscription (s : State) (id assetType symbol : string) :
  reachable s →
  id ∉ subscribers_of (subscriptionKey assetType symbol) s →
  let s' := on_unsubscribe id assetType symbol s in
  same_registry s s' ∧
  new_messages s s' = [(id, Unsubscribed assetType symbol)].
Proof.
  intros Hinv%reachable_inv Hid. cbv zeta. rewrite on_unsubscribe_unfold. cbv zeta.
  set (key := subscriptionKey assetType symbol) in *.
  split.
  - unfold subscribers_of in Hid.
    destruct (subscriptions s !! key) as [X|] eqn:HX; simpl in Hid; [|done].
    assert (HXid : X ∖ {[id]} = X) by set_solver.
    assert (Hsize : size (X ∖ {[id]}) ≠ 0).
    { rewrite HXid, size_zero_empty. by eapply inv_nonempty. }
    destruct (drop_from_timers id key X (log (Unsubscribing key) s)) as (Hn & Hp & Hi).
    rewrite decide_False in Hp by done. rewrite decide_False in Hi by done.
    repeat split; simpl; [|done..].
    pose proof (map_eq (subscriptions (drop_from id key X (log (Unsubscribing key) s)))
      (subscriptions s)) as Heq.
    apply Heq. intros k. rewrite drop_from_subscriptions. simpl.
    case_decide as Hk; [|done]. subst k. unfold strip.
    by rewrite decide_False, HXid, HX by done.
  - unfold new_messages. simpl.
    destruct (subscriptions s !! key) as [X|]; simpl.
    + by rewrite drop_from_sent, drop_app_length.
    + by rewrite drop_app_length.
Qed.

(** X4 at work: "b" unsubscribes from a key only "a" holds. *)
Lemma unsubscribe_without_subscription_witness :
  let s := run [Subscribe "a" "STOCK" "AAPL"] (init None) in
  same_registry s (on_unsubscribe "b" "STOCK" "AAPL" s) ∧
  new_messages s (on_unsubscribe "b" "STOCK" "AAPL" s) = [("b", Unsubscribed "STOCK" "AAPL")].
Proof.
  cbv zeta.
  apply (unsubscribe_without_subscription
    (run [Subscribe "a" "STOCK" "AAPL"] (init None)) "b" "STOCK" "AAPL").
  - eexists _, _; reflexivity.
  - by vm_compute.
Defined.

(** X5. A socket that subscribes to a key it does not hold and then
    unsubscribes leaves the subscriber sets, the timer entries and the live
    intervals exactly as they were: a timer started for it is cleared
    again, a timer it joined is not touched. *)
Theorem subscribe_then_unsubscribe (s : State) (id assetType symbol : string) :
  reachable s →
  id ∉ subscribers_of (subscriptionKey assetType symbol) s →
  let s' := on_unsubscribe id assetType symbol (on_subscribe id assetType symbol s) in
  subscriptions s' = subscriptions s ∧
  pollingTimers s' = pollingTimers s ∧
  intervals s' = intervals s.
Proof.
  intros Hinv%reachable_inv Hid. cbv zeta.
  set (key := subscriptionKey assetType symbol) in *.
  set (s1 := on_subscribe id assetType symbol s).
  assert (Hs1 : subscriptions s1 = <[key := subscribers_of key s ∪ {[id]}]> (subscriptions s))
    by apply on_subscribe_subscriptions.
  assert (Hjoin : ∀ X0, subscriptions s !! key = Some X0 →
    pollingTimers s1 = pollingTimers s ∧ intervals s1 = intervals s).
  { intros X0 HX0.
    destruct (on_subscribe_join id assetType symbol s X0 HX0) as (Hp1 & Hi1 & _); [|done].
    apply size_add_new; [by eapply inv_nonempty|].
    unfold subscribers_of in Hid. by rewrite HX0 in Hid. }
  assert (Hfirst : subscriptions s !! key = None →
    pollingTimers s1 = <[key := nextHandle s]> (pollingTimers s) ∧
    intervals s1 =
      <[nextHandle s := mkTimer assetType symbol (interval_for assetType)]> (intervals s)).
  { intros HX0. by destruct (on_subscribe_first id assetType symbol s HX0) as (? & ? & _). }
  rewrite on_unsubscribe_unfold. cbv zeta. fold key.
  clearbody s1.
  rewrite Hs1, lookup_insert_eq.
  set (X := subscribers_of key s ∪ {[id]}).
  assert (HX : X ∖ {[id]} = subscribers_of key s) by (subst X; set_solver).
  destruct (drop_from_timers id key X (log (Unsubscribing key) s1)) as (_ & Hp & Hi).
  assert (Hsub : ∀ k, subscriptions (drop_from id key X (log (Unsubscribing key) s1)) !! k
    = if decide (key = k) then strip id X else subscriptions s !! k).
  { intros k. rewrite drop_from_subscriptions. simpl. rewrite Hs1.
    destruct (decide (key = k)); [done|]. by rewrite lookup_insert_ne. }
  cbn [subscriptions pollingTimers intervals emit].
  rewrite Hp, Hi. cbn [pollingTimers intervals log]. rewrite HX.
  clear Hp Hi.
  destruct (subscriptions s !! key) as [X0|] eqn:HX0.
  - assert (Hsof : subscribers_of key s = X0) by (unfold subscribers_of; by rewrite HX0).
    rewrite Hsof in *.
    assert (HX0ne : X0 ≠ ∅) by by eapply inv_nonempty.
    assert (Hsize : size X0 ≠ 0) by by rewrite size_zero_empty.
    destruct (Hjoin X0 eq_refl) as (Hp1 & Hi1).
    rewrite !decide_False by done. split; [|done].
    apply map_eq. intros k. rewrite Hsub. case_decide as Hk; [|done].
    subst k. unfold strip. by rewrite HX, decide_False, HX0 by done.
  - assert (Hsof : subscribers_of key s = ∅) by (unfold subscribers_of; by rewrite HX0).
    rewrite Hsof in *.
    destruct (Hfirst eq_refl) as (Hp1 & Hi1).
    rewrite size_empty, !decide_True by done.
    rewrite Hp1, Hi1, lookup_insert_eq, !delete_insert_eq.
    assert (Hpk : pollingTimers s !! key = None).
    { apply eq_None_not_Some. rewrite (inv_dom s Hinv), HX0. by intros [? ?]. }
    assert (Hfresh : intervals s !! nextHandle s = None).
    { apply eq_None_not_Some. intros Hsome%(inv_fresh s Hinv). lia. }
    rewrite !delete_id by done. split; [|done].
    apply map_eq. intros k. rewrite Hsub. case_decide as Hk; [|done].
    subst k. unfold strip. by rewrite HX, size_empty, decide_True, HX0 by done.
Qed.

(** X5 at work: "b" joins and leaves a key "a" holds. *)
Lemma subscribe_then_unsubscribe_witness :
  let s := run [Subscribe "a" "STOCK" "AAPL"] (init None) in
  let s' := on_unsubscribe "b" "STOCK" "AAPL" (on_subscribe "b" "STOCK" "AAPL" s) in
  subscriptions s' = subscriptions s ∧ pollingTimers s' = pollingTimers s ∧
  intervals s' = intervals s.
Proof.
  cbv zeta.
  apply (subscribe_then_unsubscribe
    (run [Subscribe "a" "STOCK" "AAPL"] (init None)) "b" "STOCK" "AAPL").
  - eexists _, _; reflexivity.
  - by vm_compute.
Defined.

(** Any number of new sockets join a key that is already polled. *)
Lemma join_many assetType symbol (ids : list string) :
  ∀ (s : State) (X : gset string),
    subscriptions s !! subscriptionKey assetType symbol = Some X →
    X ≠ ∅ → NoDup ids → (∀ id, id ∈ ids → id ∉ X) →
    let s' := run ((λ id, Subscribe id assetType symbol) <$> ids) s in
    subscriptions s' =
      <[subscriptionKey assetType symbol := X ∪ list_to_set ids]> (subscriptions s) ∧
    pollingTimers s' = pollingTimers s ∧ intervals s' = intervals s.
Proof.
  set (key := subscriptionKey assetType symbol).
  induction ids as [|id ids IH]; intros s X HX Hne Hnd Hnew; cbv zeta.
  - unfold run. simpl. rewrite (right_id_L ∅ (∪)). by rewrite insert_id.
  - apply NoDup_cons in Hnd as [Hid Hnd].
    rewrite fmap_cons. unfold run. cbn [foldl step].
    fold (run ((λ id, Subscribe id assetType symbol) <$> ids)
            (on_subscribe id assetType symbol s)).
    set (s1 := on_subscribe id assetType symbol s).
    assert (Hs1 : subscriptions s1 = <[key := X ∪ {[id]}]> (subscriptions s)).
    { subst s1. rewrite on_subscribe_subscriptions. fold key.
      unfold subscribers_of. by rewrite HX. }
    destruct (on_subscribe_join id assetType symbol s X HX) as (Hp1 & Hi1 & _).
    { apply size_add_new; [done|]. apply Hnew. by left. }
    fold s1 in Hp1, Hi1. clearbody s1.
    destruct (IH s1 (X ∪ {[id]})) as (Hs & Hp & Hi).
    + by rewrite Hs1, lookup_insert_eq.
    + set_solver.
    + done.
    + intros id' Hin. assert (id' ∉ X) by (apply Hnew; by right).
      assert (id' ≠ id) by (intros ->; done). set_solver.
    + rewrite Hs, Hp, Hi, Hs1, insert_insert_eq. split; [|done].
      f_equal. set_solver.
Qed.

(** X6. Any number of different sockets that subscribe, one after the
    other, to a key nobody held start one timer between them: the first
    request creates it and every later one only joins the subscriber
    set. *)
Theorem many_subscribers_one_timer (s : State) (assetType symbol id0 : string)
    (ids : list string) :
  reachable s →
  subscriptions s !! subscriptionKey assetType symbol = None →
  NoDup (id0 :: ids) →
  let key := subscriptionKey assetType symbol in
  let s' := run ((λ id, Subscribe id assetType symbol) <$> (id0 :: ids)) s in
  subscriptions s' = <[key := list_to_set (id0 :: ids)]> (subscriptions s) ∧
  pollingTimers s' = <[key := nextHandle s]> (pollingTimers s) ∧
  intervals s' =
    <[nextHandle s := mkTimer assetType symbol (interval_for assetType)]> (intervals s).
Proof.
  intros _ Hnone Hnd. cbv zeta.
  set (key := subscriptionKey assetType symbol) in *.
  apply NoDup_cons in Hnd as [Hid Hnd].
  rewrite fmap_cons. unfold run. cbn [foldl step].
  fold (run ((λ id, Subscribe id assetType symbol) <$> ids)
          (on_subscribe id0 assetType symbol s)).
  set (s1 := on_subscribe id0 assetType symbol s).
  assert (Hs1 : subscriptions s1 = <[key := {[id0]}]> (subscriptions s)).
  { subst s1. rewrite on_subscribe_subscriptions. fold key.
    unfold subscribers_of. rewrite Hnone. simpl. by rewrite (left_id_L ∅ (∪)). }
  destruct (on_subscribe_first id0 assetType symbol s Hnone) as (Hp1 & Hi1 & _).
  fold s1 key in Hp1, Hi1. clearbody s1.
  destruct (join_many assetType symbol ids s1 {[id0]}) as (Hs & Hp & Hi).
  - fold key. by rewrite Hs1, lookup_insert_eq.
  - set_solver.
  - done.
  - intros id Hin. assert (id ≠ id0) by (intros ->; done). set_solver.
  - fold key in Hs. rewrite Hs, Hp, Hi, Hs1, insert_insert_eq, Hp1, Hi1. done.
Qed.

(** X6 at work: three sockets on one key. *)
Lemma many_subscribers_one_timer_witness :
  let s' := run ((λ id, Subscribe id "CRYPTO" "btc") <$> ["a"; "b"; "c"]) (init None) in
  subscriptions s' = <["CRYPTO:btc" := list_to_set ["a"; "b"; "c"]]> ∅ ∧
  pollingTimers s' = <["CRYPTO:btc" := 0]> ∅ ∧
  intervals s' = <[0 := mkTimer "CRYPTO" "btc" 3000]> ∅.
Proof.
  cbv zeta.
  apply (many_subscribers_one_timer (init None) "CRYPTO" "btc" "a" ["b"; "c"]).
  - by exists None, [].
  - reflexivity.
  - by compute_done.
Defined.

(** X7. A subscriber leaves a key.  When it was the only one, the key
    disappears from both maps and the timer that was recorded for it is
    cleared; when others remain, the set shrinks by this socket and no
    timer entry and no interval changes.  Every other key keeps its
    subscriber set and its timer entry in both cases. *)
Theorem unsubscribe_of_a_subscriber (s : State) (id assetType symbol : string)
    (X : gset string) :
  reachable s →
  subscriptions s !! subscriptionKey assetType symbol = Some X →
  id ∈ X →
  let key := subscriptionKey assetType symbol in
  let s' := on_unsubscribe id assetType symbol s in
  (X = {[id]} →
     subscriptions s' !! key = None ∧ pollingTimers s' !! key = None ∧
     ∃ h, pollingTimers s !! key = Some h ∧ intervals s' = delete h (intervals s)) ∧
  (X ≠ {[id]} →
     subscriptions s' !! key = Some (X ∖ {[id]}) ∧
     pollingTimers s' = pollingTimers s ∧ intervals s' = intervals s) ∧
  (∀ k, k ≠ key →
     subscriptions s' !! k = subscriptions s !! k ∧
     pollingTimers s' !! k = pollingTimers s !! k).
Proof.
  intros Hinv%reachable_inv HX Hid. cbv zeta.
  set (key := subscriptionKey assetType symbol) in *.
  rewrite on_unsubscribe_unfold. cbv zeta. fold key. rewrite HX.
  destruct (drop_from_timers id key X (log (Unsubscribing key) s)) as (_ & Hp & Hi).
  assert (Hsub : ∀ k, subscriptions (drop_from id key X (log (Unsubscribing key) s)) !! k
    = if decide (key = k) then strip id X else subscriptions s !! k)
    by (intros k; by rewrite drop_from_subscriptions).
  cbn [subscriptions pollingTimers intervals emit].
  rewrite Hp, Hi. cbn [pollingTimers intervals log]. clear Hp Hi.
  split; [|split].
  - intros ->.
    assert (Hz : size (({[id]} : gset string) ∖ {[id]}) = 0).
    { apply size_zero_empty. set_solver. }
    rewrite !decide_True by done.
    rewrite Hsub, decide_True by done. unfold strip. rewrite decide_True by done.
    split; [done|]. split; [apply lookup_delete_eq|].
    assert (Hsome : is_Some (pollingTimers s !! key)) by (apply Hinv; eauto).
    destruct Hsome as [h Hh]. exists h. by rewrite Hh.
  - intros Hne.
    assert (Hz : size (X ∖ {[id]}) ≠ 0).
    { rewrite size_zero_empty. intros Hempty. apply Hne.
      apply set_eq. intros x. rewrite elem_of_singleton. split.
      - intros Hx. destruct (decide (x = id)) as [->|Hxid]; [done|].
        assert (x ∈ X ∖ {[id]}) by set_solver. rewrite Hempty in *. set_solver.
      - by intros ->. }
    rewrite !decide_False by done.
    rewrite Hsub, decide_True by done. unfold strip. by rewrite decide_False by done.
  - intros k Hk. rewrite Hsub, decide_False by done. split; [done|].
    case_decide; [|done]. by rewrite lookup_delete_ne.
Qed.

(** X7 at work: "a" leaves a key it holds alone. *)
Lemma unsubscribe_of_a_subscriber_witness :
  let s := run [Subscribe "a" "STOCK" "AAPL"] (init None) in
  let s' := on_unsubscribe "a" "STOCK" "AAPL" s in
  subscriptions s' !! "STOCK:AAPL" = None ∧ pollingTimers s' !! "STOCK:AAPL" = None ∧
  ∃ h, pollingTimers s !! "STOCK:AAPL" = Some h ∧ intervals s' = delete h (intervals s).
Proof.
  cbv zeta.
  destruct (unsubscribe_of_a_subscriber
    (run [Subscribe "a" "STOCK" "AAPL"] (init None)) "a" "STOCK" "AAPL" {[ "a" ]})
    as (Hsole & _).
  - eexists _, _; reflexivity.
  - reflexivity.
  - by apply elem_of_singleton.
  - by apply Hsole.
Defined.

(** ** What a disconnect does to the timers *)

Section DisconnectTimers.

Variable id : string.

(** The timers after the loop over any part [m] of the map: a key whose
    set becomes empty loses its entry and the interval recorded for it,
    and nothing else is lost. *)
Lemma disconnect_loop_timers s (m : gmap string (gset string)) :
  let r := map_fold (drop_from id) s m in
  nextHandle r = nextHandle s ∧
  (∀ k, pollingTimers r !! k =
     match m !! k with
     | Some X => if decide (size (X ∖ {[id]}) = 0) then None else pollingTimers s !! k
     | None => pollingTimers s !! k
     end) ∧
  (∀ k X h, m !! k = Some X → size (X ∖ {[id]}) = 0 →
     pollingTimers s !! k = Some h → intervals r !! h = None) ∧
  (∀ h, (∀ k X, m !! k = Some X → size (X ∖ {[id]}) = 0 →
           pollingTimers s !! k ≠ Some h) →
     intervals r !! h = intervals s !! h).
Proof.
  cbv zeta.
  apply (map_fold_weak_ind (λ r m,
    nextHandle r = nextHandle s ∧
    (∀ k, pollingTimers r !! k =
       match m !! k with
       | Some X => if decide (size (X ∖ {[id]}) = 0) then None else pollingTimers s !! k
       | None => pollingTimers s !! k
       end) ∧
    (∀ k X h, m !! k = Some X → size (X ∖ {[id]}) = 0 →
       pollingTimers s !! k = Some h → intervals r !! h = None) ∧
    (∀ h, (∀ k X, m !! k = Some X → size (X ∖ {[id]}) = 0 →
             pollingTimers s !! k ≠ Some h) →
       intervals r !! h = intervals s !! h))).
  - split; [done|]. split; [|split].
    + intros k. by rewrite lookup_empty.
    + intros k X h. by rewrite lookup_empty.
    + done.
  - intros key X m' r Hkey (Hn & Hp & Hdead & Hkeep).
    destruct (drop_from_timers id key X r) as (Hn' & Hp' & Hi').
    assert (Hrk : pollingTimers r !! key = pollingTimers s !! key)
      by by rewrite Hp, Hkey.
    split; [congruence|]. split; [|split].
    + intros k. rewrite Hp'. destruct (decide (key = k)) as [<-|Hne].
      * rewrite lookup_insert_eq. case_decide; [apply lookup_delete_eq|done].
      * rewrite lookup_insert_ne by done. rewrite <- Hp.
        case_decide; [by rewrite lookup_delete_ne|done].
    + intros k X0 h Hk Hz Hh. rewrite Hi'.
      destruct (decide (key = k)) as [<-|Hne].
      * rewrite lookup_insert_eq in Hk. injection Hk as <-.
        rewrite decide_True by done. rewrite Hrk, Hh. apply lookup_delete_eq.
      * rewrite lookup_insert_ne in Hk by done.
        pose proof (Hdead k X0 h Hk Hz Hh) as Hnone.
        case_decide; [|done].
        destruct (pollingTimers r !! key) as [h0|]; [|done].
        apply lookup_delete_None. by right.
    + intros h Hh. rewrite Hi'.
      assert (Hold : intervals r !! h = intervals s !! h).
      { apply Hkeep. intros k X0 Hk. apply Hh.
        rewrite lookup_insert_ne; [done|]. intros <-. congruence. }
      case_decide as Hz; [|done].
      destruct (pollingTimers r !! key) as [h0|] eqn:Hh0; [|done].
      rewrite lookup_delete_ne; [done|]. intros ->.
      apply (Hh key X); [apply lookup_insert_eq|done|congruence].
Qed.

(** One turn of the loop keeps the intervals accounted for. *)
Lemma drop_from_tidy key X s :
  registry_inv s → tidy s → tidy (drop_from id key X s).
Proof.
  intros Hinv Htidy h t.
  destruct (drop_from_timers id key X s) as (_ & -> & ->).
  case_decide as Hz; [|apply Htidy].
  destruct (pollingTimers s !! key) as [h0|] eqn:Hh0.
  - intros [Hne Hlive]%lookup_delete_Some.
    pose proof (Htidy _ _ Hlive) as Hreg.
    rewrite lookup_delete_ne; [done|]. intros Hkey. congruence.
  - intros Hlive. pose proof (Htidy _ _ Hlive) as Hreg.
    rewrite lookup_delete_ne; [done|]. intros Hkey. congruence.
Qed.

Lemma disconnect_loop_tidy s (m : gmap string (gset string)) :
  registry_inv s → tidy s → m ⊆ subscriptions s →
  tidy (map_fold (drop_from id) s m).
Proof.
  intros Hinv Htidy Hsub.
  enough (registry_inv (map_fold (drop_from id) s m) ∧
          tidy (map_fold (drop_from id) s m) ∧
          ∀ k, m !! k = None →
            subscriptions (map_fold (drop_from id) s m) !! k = subscriptions s !! k)
    as (_ & H & _) by done.
  revert Hsub.
  apply (map_fold_weak_ind (λ r m, m ⊆ subscriptions s →
    registry_inv r ∧ tidy r ∧
    ∀ k, m !! k = None → subscriptions r !! k = subscriptions s !! k)).
  - done.
  - intros key X m' r Hkey IH Hsub.
    assert (Hm' : m' ⊆ subscriptions s).
    { etrans; [|exact Hsub]. by apply insert_subseteq. }
    destruct (IH Hm') as (Hr & Ht & Hlook).
    assert (HX : subscriptions r !! key = Some X).
    { rewrite Hlook by done. eapply lookup_weaken; [|exact Hsub]. apply lookup_insert_eq. }
    split; [by apply drop_from_inv|]. split; [by apply drop_from_tidy|].
    intros k Hk. apply lookup_insert_None in Hk as [Hk Hne].
    rewrite drop_from_subscriptions, decide_False by done. by apply Hlook.
Qed.

End DisconnectTimers.

Lemma size_zero_subseteq (X : gset string) id : size (X ∖ {[id]}) = 0 ↔ X ⊆ {[id]}.
Proof.
  split.
  - intros Hz%size_zero_empty x Hx. destruct (decide (x = id)) as [->|Hne].
    + by apply elem_of_singleton.
    + assert (Hin : x ∈ X ∖ {[id]}) by (apply elem_of_difference; by rewrite elem_of_singleton).
      rewrite Hz in Hin. by apply not_elem_of_empty in Hin.
  - intros Hsub. apply size_zero_empty. apply set_eq. intros x.
    rewrite elem_of_difference. split; [|by intros ?%not_elem_of_empty].
    intros [Hx Hne]. by specialize (Hsub x Hx).
Qed.

(** X8. A disconnect clears exactly the timers of the keys the socket held
    alone.  Such a key loses its entry in [pollingTimers] and the interval
    recorded there; a key that another socket still holds keeps its entry,
    and the interval behind it is untouched. *)
Theorem disconnect_clears_sole_timers (s : State) (id k : string) (X : gset string) :
  reachable s →
  subscriptions s !! k = Some X →
  let s' := on_disconnect id s in
  (X ⊆ {[id]} →
     pollingTimers s' !! k = None ∧
     ∃ h, pollingTimers s !! k = Some h ∧ intervals s' !! h = None) ∧
  (¬ X ⊆ {[id]} →
     pollingTimers s' !! k = pollingTimers s !! k ∧
     ∃ h, pollingTimers s !! k = Some h ∧ intervals s' !! h = intervals s !! h).
Proof.
  intros Hinv%reachable_inv HX. cbv zeta. unfold on_disconnect. cbv zeta.
  destruct (disconnect_loop_timers id (log (ClientDisconnected id) s)
    (subscriptions (log (ClientDisconnected id) s))) as (_ & Hp & Hdead & Hkeep).
  cbn [subscriptions pollingTimers intervals log] in *.
  assert (Hsome : is_Some (pollingTimers s !! k)) by (apply Hinv; eauto).
  destruct Hsome as [h Hh].
  split.
  - intros Hsole%size_zero_subseteq. split.
    + by rewrite Hp, HX, decide_True.
    + exists h. split; [done|]. by apply (Hdead k X h).
  - intros Hshared. assert (Hz : size (X ∖ {[id]}) ≠ 0) by by rewrite size_zero_subseteq.
    split.
    + by rewrite Hp, HX, decide_False.
    + exists h. split; [done|]. apply Hkeep.
      intros k' X' HX' Hz' Hh'.
      assert (k' = k) as -> by by eapply registry_inv_inj.
      congruence.
Qed.

(** X8 at work: "a" holds STOCK:AAPL with "b" and CRYPTO:btc alone. *)
Lemma disconnect_clears_sole_timers_witness :
  let s := run [Subscribe "a" "STOCK" "AAPL"; Subscribe "b" "STOCK" "AAPL";
                Subscribe "a" "CRYPTO" "btc"] (init None) in
  pollingTimers (on_disconnect "a" s) !! "CRYPTO:btc" = None ∧
  pollingTimers (on_disconnect "a" s) !! "STOCK:AAPL" = pollingTimers s !! "STOCK:AAPL".
Proof.
  cbv zeta.
  destruct (disconnect_clears_sole_timers
    (run [Subscribe "a" "STOCK" "AAPL"; Subscribe "b" "STOCK" "AAPL";
          Subscribe "a" "CRYPTO" "btc"] (init None)) "a" "CRYPTO:btc" {[ "a" ]})
    as ((H1 & _) & _); [eexists _, _; reflexivity|reflexivity|done|].
  destruct (disconnect_clears_sole_timers
    (run [Subscribe "a" "STOCK" "AAPL"; Subscribe "b" "STOCK" "AAPL";
          Subscribe "a" "CRYPTO" "btc"] (init None)) "a" "STOCK:AAPL" {[ "a"; "b" ]})
    as (_ & H2); [eexists _, _; reflexivity|by vm_compute|].
  split; [exact H1|]. apply H2. intros Hsub.
  assert (Hb : "b" ∈ ({[ "a" ]} : gset string)).
  { apply Hsub. apply elem_of_union. right. by apply elem_of_singleton. }
  by apply elem_of_singleton in Hb.
Defined.

(** The disconnect handler of a socket that holds no key only logs. *)
Lemma on_disconnect_absent_same id s :
  registry_inv s → absent id s → same_registry s (on_disconnect id s).
Proof.
  intros Hinv Habs.
  assert (Hstrip : ∀ k X, subscriptions s !! k = Some X → size (X ∖ {[id]}) ≠ 0).
  { intros k X HX. rewrite size_zero_empty.
    assert (X ∖ {[id]} = X) as -> by (specialize (Habs k X HX); set_solver).
    by eapply inv_nonempty. }
  assert (Hsubs : subscriptions (on_disconnect id s) = subscriptions s).
  { apply map_eq. intros k. rewrite on_disconnect_subscriptions by done.
    destruct (subscriptions s !! k) as [X|] eqn:HX; simpl; [|done].
    unfold strip. rewrite decide_False by by eapply Hstrip.
    f_equal. specialize (Habs k X HX). set_solver. }
  split; [done|]. clear Hsubs.
  unfold on_disconnect. cbv zeta.
  destruct (disconnect_loop_timers id (log (ClientDisconnected id) s)
    (subscriptions (log (ClientDisconnected id) s))) as (Hn & Hp & _ & Hkeep).
  cbn [subscriptions pollingTimers intervals nextHandle log] in *.
  split; [|split; [|done]].
  - apply map_eq. intros k. rewrite Hp.
    destruct (subscriptions s !! k) as [X|] eqn:HX; [|done].
    by rewrite decide_False by by eapply Hstrip.
  - apply map_eq. intros h. apply Hkeep. intros k X HX Hz.
    by destruct (Hstrip k X HX).
Qed.

(** X9. The disconnect handler may run twice for one socket: the second
    run finds the socket in no subscriber set and changes no subscriber
    set, no timer entry and no interval. *)
Theorem disconnect_twice_is_once (s : State) (id : string) :
  reachable s →
  same_registry (on_disconnect id s) (on_disconnect id (on_disconnect id s)).
Proof.
  intros Hinv%reachable_inv. apply on_disconnect_absent_same.
  - by apply on_disconnect_inv.
  - by apply on_disconnect_absent.
Qed.

(** X9 at work. *)
Lemma disconnect_twice_is_once_witness :
  let s := run [Subscribe "a" "STOCK" "AAPL"; Subscribe "b" "STOCK" "AAPL"] (init None) in
  same_registry (on_disconnect "a" s) (on_disconnect "a" (on_disconnect "a" s)).
Proof.
  cbv zeta. apply disconnect_twice_is_once. eexists _, _; reflexivity.
Defined.

(** ** No interval is lost without a repeated subscription *)

Lemma tidy_same_registry s s' : same_registry s s' → tidy s → tidy s'.
Proof. intros (_ & Hp & Hi & _) Ht h t. rewrite Hp, Hi. apply Ht. Qed.

Lemma step_tidy s e :
  registry_inv s → tidy s →
  match e with
  | Subscribe id assetType symbol => id ∉ subscribers_of (subscriptionKey assetType symbol) s
  | _ => True
  end →
  tidy (step s e).
Proof.
  intros Hinv Htidy He.
  destruct e as [id|id a sym|id a sym|id|timer|i up|i reply now]; cbn [step].
  - eapply tidy_same_registry; [|exact Htidy]. done.
  - set (key := subscriptionKey a sym) in *. unfold subscribers_of in He.
    destruct (subscriptions s !! key) as [X|] eqn:HX; simpl in He.
    + destruct (on_subscribe_join id a sym s X HX) as (Hp & Hi & _).
      { apply size_add_new; [by eapply inv_nonempty|done]. }
      intros h t. rewrite Hp, Hi. apply Htidy.
    + destruct (on_subscribe_first id a sym s HX) as (Hp & Hi & _). fold key in Hp.
      assert (Hpk : pollingTimers s !! key = None).
      { apply eq_None_not_Some. rewrite (inv_dom s Hinv), HX. by intros [? ?]. }
      intros h t. rewrite Hp, Hi.
      destruct (decide (nextHandle s = h)) as [<-|Hne].
      * rewrite lookup_insert_eq. intros [= <-]. apply lookup_insert_eq.
      * rewrite lookup_insert_ne by done. intros Hlive.
        pose proof (Htidy _ _ Hlive) as Hreg.
        rewrite lookup_insert_ne; [done|]. intros Hkey. congruence.
  - rewrite on_unsubscribe_unfold. cbv zeta.
    destruct (subscriptions s !! _) as [X|]; [|done].
    apply (tidy_same_registry (drop_from id (subscriptionKey a sym) X
      (log (Unsubscribing (subscriptionKey a sym)) s))); [done|].
    apply drop_from_tidy; [by apply registry_inv_log|done].
  - unfold on_disconnect. cbv zeta.
    apply disconnect_loop_tidy; [|done..].
    apply registry_inv_log. by apply registry_inv_clients.
  - eapply tidy_same_registry; [apply timer_fires_registry|done].
  - eapply tidy_same_registry; [apply fetch_settles_registry|done].
  - eapply tidy_same_registry; [apply cache_settles_registry|done].
Qed.

Lemma run_tidy es :
  ∀ s, registry_inv s → tidy s → no_resubscribe es s → tidy (run es s).
Proof.
  induction es as [|e es IH]; intros s Hinv Htidy Hno; [done|].
  destruct Hno as [He Hrest]. unfold run. cbn [foldl]. apply IH.
  - by apply step_inv.
  - apply step_tidy; [done..|]. by destruct e.
  - done.
Qed.

(** X10. As long as no socket sends a subscribe request for a key it
    already holds, every live interval is the one [pollingTimers] records
    for its key, so [stopPolling] can always find it; and once the last
    subscriber has left, no interval is running at all. *)
Theorem no_interval_is_lost (key : option string) (es : list Event) :
  no_resubscribe es (init key) →
  let s := run es (init key) in
  tidy s ∧ (subscriptions s = ∅ → intervals s = ∅).
Proof.
  intros Hno. cbv zeta.
  assert (Htidy : tidy (run es (init key))).
  { apply run_tidy; [apply registry_inv_init| |done].
    intros h t. simpl. by rewrite lookup_empty. }
  split; [done|]. intros Hempty.
  apply map_eq. intros h. rewrite lookup_empty.
  destruct (intervals (run es (init key)) !! h) as [t|] eqn:Hlive; [|done].
  pose proof (Htidy _ _ Hlive) as Hreg.
  assert (Hsome : is_Some (subscriptions (run es (init key)) !! tm_key t)).
  { apply (inv_dom _ (run_inv es _ (registry_inv_init key))). eauto. }
  rewrite Hempty, lookup_empty in Hsome. by destruct Hsome.
Qed.

(** X10 at work: two sockets come and go. *)
Lemma no_interval_is_lost_witness :
  intervals (run [Subscribe "a" "STOCK" "AAPL"; Subscribe "b" "STOCK" "AAPL";
                  Unsubscribe "a" "STOCK" "AAPL"; Disconnect "b"] (init None)) = ∅.
Proof.
  apply (no_interval_is_lost None
    [Subscribe "a" "STOCK" "AAPL"; Subscribe "b" "STOCK" "AAPL";
     Unsubscribe "a" "STOCK" "AAPL"; Disconnect "b"]).
  - cbn [no_resubscribe]. split; [by vm_compute|]. split; [|done].
    intros Hb. vm_compute in Hb. done.
  - by vm_compute.
Defined.

(** ** The intervals timers are given *)

Lemma disconnect_loop_intervals id s (m : gmap string (gset string)) :
  ∀ h t, intervals (map_fold (drop_from id) s m) !! h = Some t →
         intervals s !! h = Some t.
Proof.
  apply (map_fold_weak_ind (λ r _,
    ∀ h t, intervals r !! h = Some t → intervals s !! h = Some t)); [done|].
  intros key X _ r _ IH h t.
  destruct (drop_from_timers id key X r) as (_ & _ & ->).
  case_decide; [|apply IH].
  destruct (pollingTimers r !! key) as [h0|]; [|apply IH].
  intros [_ Hlive]%lookup_delete_Some. by apply IH.
Qed.

(** A step creates at most one interval, and only a subscribe request
    does: with the class and symbol of the request and the interval of
    the class. *)
Lemma step_intervals s e h t :
  intervals (step s e) !! h = Some t →
  intervals s !! h = Some t ∨
  ∃ id assetType symbol,
    e = Subscribe id assetType symbol ∧
    t = mkTimer assetType symbol (interval_for assetType).
Proof.
  destruct e as [id|id a sym|id a sym|id|timer|i up|i reply now]; cbn [step].
  - by left.
  - rewrite on_subscribe_unfold. cbv zeta. case_decide; [|by left].
    simpl. intros [[_ <-]|[_ Hold]]%lookup_insert_Some; [|by left].
    right. by exists id, a, sym.
  - rewrite on_unsubscribe_unfold. cbv zeta.
    destruct (subscriptions s !! _) as [X|]; [|by left].
    cbn [intervals emit].
    destruct (drop_from_timers id (subscriptionKey a sym) X
      (log (Unsubscribing (subscriptionKey a sym)) s)) as (_ & _ & ->).
    cbn [intervals pollingTimers log].
    case_decide; [|by left].
    destruct (pollingTimers s !! _) as [h0|]; [|by left].
    intros [_ Hlive]%lookup_delete_Some. by left.
  - unfold on_disconnect. cbv zeta. intros Hlive%disconnect_loop_intervals. by left.
  - destruct (timer_fires_registry timer s) as (_ & _ & -> & _). by left.
  - destruct (fetch_settles_registry i up s) as (_ & _ & -> & _). by left.
  - destruct (cache_settles_registry i reply now s) as (_ & _ & -> & _). by left.
Qed.

Lemma interval_for_bounds assetType :
  (1 ≤ interval_for assetType ≤ 3600000)%Z.
Proof.
  unfold interval_for, interval_value, get_property.
  destruct (pollingIntervals !! assetType) as [i|] eqn:Hi.
  - unfold pollingIntervals in Hi.
    repeat (apply lookup_insert_Some in Hi as [[_ <-]|[_ Hi]]; [by vm_compute|]).
    by rewrite lookup_empty in Hi.
  - case_decide; by vm_compute.
Qed.

(** For the nine classes the delay is the number in the table. *)
Lemma interval_for_table assetType :
  assetType ∈ asset_classes →
  pollingIntervals !! assetType = Some (interval_for assetType) ∧
  (3000 ≤ interval_for assetType)%Z.
Proof.
  intros Hin%list_elem_of_In. simpl in Hin.
  repeat (destruct Hin as [<-|Hin]; [by vm_compute|]). done.
Qed.

Lemma run_intervals_at_class es :
  ∀ s, (∀ h t, intervals s !! h = Some t →
               tm_interval t = interval_for (tm_assetType t)) →
       ∀ h t, intervals (run es s) !! h = Some t →
              tm_interval t = interval_for (tm_assetType t).
Proof.
  induction es as [|e es IH]; intros s Hs; [done|].
  unfold run. cbn [foldl]. apply IH. intros h t Hlive.
  apply step_intervals in Hlive as [Hold|(id & a & sym & _ & ->)]; [by eapply Hs|done].
Qed.

(** X11. Every interval the server ever runs was created with the delay
    that [setInterval] makes of [pollingIntervals[assetType] || 10000] for
    its own asset type: the table value for the nine classes; 1 ms for an
    asset type that names a member of [Object.prototype], where the lookup
    finds that member, which is no number; 10 s for any other asset type.
    In every case it is between 1 ms and one hour. *)
Theorem timers_run_at_class_interval (s : State) (h : nat) (t : Timer) :
  reachable s →
  intervals s !! h = Some t →
  tm_interval t = interval_for (tm_assetType t) ∧
  (1 ≤ tm_interval t ≤ 3600000)%Z ∧
  (tm_assetType t ∈ asset_classes →
     pollingIntervals !! tm_assetType t = Some (tm_interval t) ∧
     (3000 ≤ tm_interval t)%Z) ∧
  (tm_assetType t ∈ object_prototype_members →
     interval_value (tm_assetType t) = Member (tm_assetType t) ∧ tm_interval t = 1%Z) ∧
  (tm_assetType t ∉ asset_classes → (tm_assetType t ∉ object_prototype_members) →
     tm_interval t = 10000%Z).
Proof.
  intros (key & es & ->) Hlive.
  assert (Hclass : tm_interval t = interval_for (tm_assetType t)).
  { eapply (run_intervals_at_class es (init key)); [|exact Hlive].
    intros h0 t0. simpl. by rewrite lookup_empty. }
  split; [done|]. rewrite Hclass. split; [apply interval_for_bounds|].
  split; [apply interval_for_table|]. split.
  - intros Hmem. split; [by apply interval_value_member|by apply interval_for_member].
  - apply interval_for_undefined.
Qed.

(** X11 at work: the timer of a key whose asset type is [constructor]. *)
Lemma timers_run_at_class_interval_witness :
  tm_interval (mkTimer "constructor" "AAPL" 1) = 1%Z.
Proof.
  destruct (timers_run_at_class_interval
    (run [Subscribe "a" "constructor" "AAPL"] (init None)) 0
    (mkTimer "constructor" "AAPL" 1)) as (_ & _ & _ & Hmem & _).
  - eexists _, _; reflexivity.
  - reflexivity.
  - apply Hmem. simpl. by constructor.
Defined.

(** ** What the cache holds *)

(** The inherited members that return something truthy. *)
Lemma call_member_truthy name symbol data :
  name ∈ object_prototype_members →
  call_member name symbol = Returned data → truthy data = true →
  (name = "constructor" ∧ data = JBoxed symbol) ∨
  (name = "toString" ∧ data = JStr "[object Undefined]").
Proof.
  intros Hin%list_elem_of_In. simpl in Hin.
  repeat (destruct Hin as [<-|Hin];
    [intros [= <-]; try done; intros _; (by left) || (by right)|]).
  done.
Qed.

Lemma step_cache_inv s e :
  payloads_inv s → cache_inv s →
  payloads_inv (step s e) ∧ cache_inv (step s e).
Proof.
  intros Hpay Hcache.
  destruct e as [id|id a sym|id a sym|id|timer|i up|i reply now]; cbn [step].
  - done.
  - destruct (on_subscribe_outside id a sym s) as (Hi & _ & Hr & _).
    unfold payloads_inv, cache_inv. by rewrite Hi, Hr.
  - destruct (on_unsubscribe_outside id a sym s) as (Hi & _ & Hr & _).
    unfold payloads_inv, cache_inv. by rewrite Hi, Hr.
  - destruct (on_disconnect_outside id (set_clientsCount pred s)) as (Hi & _ & Hr & _).
    unfold payloads_inv, cache_inv. by rewrite Hi, Hr.
  - unfold timer_fires. destruct (intervals s !! timer) as [t|]; [|done].
    destruct (find_handler (tm_assetType t) (tm_symbol t)) as [handler|] eqn:Hh; [|done].
    split; [|done]. intros j a sym stage. simpl.
    destruct (decide (nextTick s = j)) as [<-|Hne].
    + rewrite lookup_insert_eq. by intros [= <- <- <-].
    + rewrite lookup_insert_ne by done. apply Hpay.
  - unfold fetch_settles.
    destruct (inflight s !! i) as [[a sym [handler|data]]|] eqn:Hi; [|done..].
    assert (Hdel : payloads_inv (set_inflight (delete i) s)).
    { intros j a' sym' stage. simpl. intros [_ Hj]%lookup_delete_Some. by eapply Hpay. }
    pose proof (Hpay i a sym _ Hi) as Hfound. simpl in Hfound.
    destruct (handler (apiKey s) up) as [why|data] eqn:Hup; [done|].
    destruct (truthy data) eqn:Hdata; [|done].
    split; [|done]. intros j a' sym' stage. simpl.
    destruct (decide (i = j)) as [<-|Hne].
    + rewrite lookup_insert_eq. intros [= <- <- <-]. split; [done|].
      apply find_handler_cases in Hfound as [Hown | [Hmem ->]]; [left; eauto|].
      right. by apply call_member_truthy.
    + rewrite lookup_insert_ne by done. apply Hpay.
  - unfold cache_settles.
    destruct (inflight s !! i) as [[a sym [handler|data]]|] eqn:Hi; [done| |done].
    assert (Hdel : payloads_inv (set_inflight (delete i) s)).
    { intros j a' sym' stage. simpl. intros [_ Hj]%lookup_delete_Some. by eapply Hpay. }
    destruct reply as [|msg]; [|done].
    destruct (publish_only_output a sym data now
      (set_redis (insert (cacheKey (subscriptionKey a sym)) (data, 60%Z))
         (set_inflight (delete i) s))) as (_&_&_&_&Hi'&_&Hr'&_).
    unfold payloads_inv, cache_inv. rewrite Hi', Hr'. split; [exact Hdel|].
    intros ck v ttl. simpl.
    intros [[<- [= <- <-]]|[_ Hold]]%lookup_insert_Some; [|by apply Hcache].
    split; [done|]. exists a, sym. split; [done|]. apply (Hpay i a sym _ Hi).
Qed.

(** X12. Whatever has happened, every entry of the cache is a truthy
    payload stored for 60 seconds under [market_data:] followed by the key
    of a timer whose asset type finds a handler that can return it: a
    fetch handler (STOCK, CRYPTO, FOREX), or the inherited [constructor],
    whose entry is the symbol wrapped in an object, or the inherited
    [toString], whose entry is a fixed string.  Null, false, 0 and the
    empty string are never cached, and nothing is cached for any other
    asset type. *)
Theorem cache_holds_truthy_payloads (s : State) (ck : string) (v : json) (ttl : Z) :
  reachable s →
  redis s !! ck = Some (v, ttl) →
  ttl = 60%Z ∧ truthy v = true ∧
  ∃ assetType symbol,
    ck = cacheKey (subscriptionKey assetType symbol) ∧
    ((assetType = "STOCK" ∨ assetType = "CRYPTO" ∨ assetType = "FOREX") ∨
     (assetType = "constructor" ∧ v = JBoxed symbol) ∨
     (assetType = "toString" ∧ v = JStr "[object Undefined]")).
Proof.
  intros (key & es & ->) Hck.
  enough (Hinv : payloads_inv (run es (init key)) ∧ cache_inv (run es (init key))).
  { destruct Hinv as (_ & Hcache).
    destruct (Hcache ck v ttl Hck) as (Httl & a & sym & Hkey & Hv & Hh).
    split; [done|]. split; [done|]. exists a, sym. split; [done|].
    destruct Hh as [Hh%handlers_table | Hh]; [by left|by right]. }
  clear Hck. unfold run.
  assert (H0 : payloads_inv (init key) ∧ cache_inv (init key)).
  { split.
    - intros i a sym stage. simpl. by rewrite lookup_empty.
    - intros c w l. simpl. by rewrite lookup_empty. }
  revert H0. generalize (init key).
  induction es as [|e es IH]; intros s (Hp & Hc); [done|].
  cbn [foldl]. apply IH. by apply step_cache_inv.
Qed.

(** X12 at work: the entry of a CRYPTO tick. *)
Lemma cache_holds_truthy_payloads_witness :
  truthy (JObj [("usd", JNum 42)]) = true.
Proof.
  apply (cache_holds_truthy_payloads
    (run [Subscribe "a" "CRYPTO" "btc"; TimerFires 0;
          FetchSettles 0 (Body (JObj [("usd", JNum 42)]));
          CacheSettles 0 Stored "t0"] (init None))
    "market_data:CRYPTO:btc" (JObj [("usd", JNum 42)]) 60%Z).
  - eexists _, _; reflexivity.
  - reflexivity.
Defined.

(** ** Who is sent what *)

(** X13. The whole outgoing traffic of the server, event by event.  A
    subscribe or unsubscribe request is answered by exactly one
    acknowledgment, to the requesting socket.  A connection, a disconnect,
    a firing timer and a settling fetch send nothing.  Only a stored cache
    write sends [market_update]s: one to each socket in the subscriber set
    of the tick's key. *)
Theorem step_traffic (s : State) (e : Event) :
  new_messages s (step s e) =
    match e with
    | Subscribe id assetType symbol => [(id, Subscribed assetType symbol)]
    | Unsubscribe id assetType symbol => [(id, Unsubscribed assetType symbol)]
    | CacheSettles i Stored now =>
        match inflight s !! i with
        | Some (mkTick assetType symbol (AwaitCache data)) =>
            (λ id, (id, MarketUpdate assetType symbol data now)) <$>
              elements (subscribers_of (subscriptionKey assetType symbol) s)
        | _ => []
        end
    | _ => []
    end.
Proof.
  unfold new_messages.
  destruct e as [id|id a sym|id a sym|id|timer|i up|i reply now]; cbn [step].
  - apply drop_all.
  - by rewrite on_subscribe_sent, drop_app_length.
  - rewrite on_unsubscribe_unfold. cbv zeta.
    destruct (subscriptions s !! _) as [X|]; simpl.
    + by rewrite drop_from_sent, drop_app_length.
    + by rewrite drop_app_length.
  - destruct (on_disconnect_outside id (set_clientsCount pred s)) as (_&_&_&_&->&_).
    apply drop_all.
  - unfold timer_fires. destruct (intervals s !! timer) as [t|]; [|apply drop_all].
    destruct (find_handler (tm_assetType t) (tm_symbol t)); apply drop_all.
  - unfold fetch_settles.
    destruct (inflight s !! i) as [[a sym [handler|data]]|]; [|apply drop_all..].
    destruct (handler (apiKey s) up) as [why|data]; [apply drop_all|].
    destruct (truthy data); apply drop_all.
  - unfold cache_settles.
    destruct (inflight s !! i) as [[a sym [handler|data]]|];
      [destruct reply; apply drop_all| |destruct reply; apply drop_all].
    destruct reply as [|msg]; [|apply drop_all].
    rewrite publish_sent. simpl. rewrite drop_app_length. unfold subscribers_of.
    destruct (subscriptions s !! _); simpl; [done|]. by rewrite elements_empty.
Qed.

(** ** The timer loop of the SIGTERM handler *)

Lemma clear_loop s (m : gmap string nat) :
  let r := map_fold (λ _ timer st,
      mkState (subscriptions st) (pollingTimers st) (delete timer (intervals st))
        (nextHandle st) (inflight st) (nextTick st) (redis st) (sent st)
        (console st) (clientsCount st) (apiKey st)) s m in
  subscriptions r = subscriptions s ∧ pollingTimers r = pollingTimers s ∧
  redis r = redis s ∧ sent r = sent s ∧
  (∀ k h, m !! k = Some h → intervals r !! h = None) ∧
  (∀ h, (∀ k, m !! k ≠ Some h) → intervals r !! h = intervals s !! h) ∧
  (∀ h t, intervals r !! h = Some t → intervals s !! h = Some t).
Proof.
  cbv zeta.
  apply (map_fold_weak_ind (λ r m,
    subscriptions r = subscriptions s ∧ pollingTimers r = pollingTimers s ∧
    redis r = redis s ∧ sent r = sent s ∧
    (∀ k h, m !! k = Some h → intervals r !! h = None) ∧
    (∀ h, (∀ k, m !! k ≠ Some h) → intervals r !! h = intervals s !! h) ∧
    (∀ h t, intervals r !! h = Some t → intervals s !! h = Some t))).
  - repeat split; done.
  - intros key h0 m' r Hkey (Hs & Hp & Hr & Ho & Hdead & Hkeep & Hsub).
    simpl. repeat split; try done.
    + intros k h. destruct (decide (key = k)) as [<-|Hne].
      * rewrite lookup_insert_eq. intros [= <-]. apply lookup_delete_eq.
      * rewrite lookup_insert_ne by done. intros Hk.
        apply lookup_delete_None. right. by eapply Hdead.
    + intros h Hh.
      assert (h0 ≠ h) by (intros ->; by apply (Hh key), lookup_insert_eq).
      rewrite lookup_delete_ne by done. apply Hkeep.
      intros k Hk. apply (Hh k). rewrite lookup_insert_ne; [done|].
      intros <-. congruence.
    + intros h t [_ Hlive]%lookup_delete_Some. by apply Hsub.
Qed.

(** X14. The timer loop of the SIGTERM handler clears every interval that
    [pollingTimers] records, so none of them fires again, and leaves both
    maps as they are.  An interval that is not recorded there survives the
    loop; when every live interval is recorded, none is left. *)
Theorem sigterm_clears_recorded_timers (s : State) :
  let s' := clear_registered_timers s in
  subscriptions s' = subscriptions s ∧ pollingTimers s' = pollingTimers s ∧
  (∀ k h, pollingTimers s !! k = Some h →
     intervals s' !! h = None ∧ timer_fires h s' = s') ∧
  (∀ h, (∀ k, pollingTimers s !! k ≠ Some h) → intervals s' !! h = intervals s !! h) ∧
  (tidy s → intervals s' = ∅).
Proof.
  cbv zeta. unfold clear_registered_timers.
  destruct (clear_loop s (pollingTimers s)) as (Hs & Hp & _ & _ & Hdead & Hkeep & Hsub).
  cbv zeta in *.
  split; [done|]. split; [done|]. split; [|split; [done|]].
  - intros k h Hh. pose proof (Hdead k h Hh) as Hnone. split; [done|].
    unfold timer_fires. by rewrite Hnone.
  - intros Htidy. apply map_eq. intros h. rewrite lookup_empty.
    match goal with |- ?m !! h = None => destruct (m !! h) as [t|] eqn:Hlive end; [|done].
    pose proof (Hsub h t Hlive) as Hold. pose proof (Htidy h t Hold) as Hreg.
    rewrite (Hdead _ _ Hreg) in Hlive. done.
Qed.

(** ** The client *)

(** X15. The chart keeps a window of the last 50 points: a new point is
    always the last one, the window is a suffix of the old points followed
    by the new one, nothing is dropped while fewer than 50 points are
    held, and the window never grows beyond 50. *)
Theorem chart_window (A : Type) (prev : list A) (p : A) :
  last (push_point prev p) = Some p ∧
  push_point prev p `suffix_of` prev ++ [p] ∧
  length (push_point prev p) = Nat.min (length prev + 1) maxDataPoints ∧
  ((length prev < maxDataPoints)%nat → push_point prev p = prev ++ [p]) ∧
  ((maxDataPoints ≤ length prev)%nat →
     push_point prev p = drop (length prev + 1 - maxDataPoints) prev ++ [p]).
Proof.
  unfold push_point, maxDataPoints. cbv zeta. rewrite length_app. simpl.
  assert (Hshape : drop (length prev + 1 - 50) (prev ++ [p]) =
                   drop (length prev + 1 - 50) prev ++ [p]).
  { rewrite drop_app.
    replace (length prev + 1 - 50 - length prev) with 0 by lia. done. }
  split; [|split; [|split; [|split]]].
  - rewrite Hshape. apply last_snoc.
  - apply suffix_drop.
  - rewrite length_drop, length_app. simpl. lia.
  - intros Hlt. replace (length prev + 1 - 50) with 0 by lia. done.
  - intros _. exact Hshape.
Qed.

Lemma pow2_pos (n : nat) : (1 ≤ 2 ^ Z.of_nat n)%Z.
Proof.
  induction n as [|n IH]; [done|].
  rewrite Nat2Z.inj_succ, Z.pow_succ_r by lia. lia.
Qed.

(** X16. The reconnect schedule of the client.  No reconnect is scheduled
    after a manual disconnect or once five attempts were made.  When one is
    scheduled, the delay is 1000 ms doubled once per earlier attempt and is
    at most 16 s, so the 30 s cap is never reached; as a function the delay
    is between 1 s and 30 s and never decreases with the attempts. *)
Theorem reconnect_schedule (reason : string) (attempts : nat) :
  should_reconnect "io client disconnect" attempts = false ∧
  ((maxReconnectAttempts ≤ attempts)%nat → should_reconnect reason attempts = false) ∧
  (should_reconnect reason attempts = true →
     reconnect_delay attempts = (1000 * 2 ^ Z.of_nat attempts)%Z ∧
     (reconnect_delay attempts ≤ 16000)%Z) ∧
  (1000 ≤ reconnect_delay attempts ≤ 30000)%Z ∧
  (reconnect_delay attempts ≤ reconnect_delay (S attempts))%Z.
Proof.
  unfold should_reconnect, reconnect_delay, maxReconnectAttempts.
  pose proof (pow2_pos attempts) as Hpos.
  assert (Hsucc : (2 ^ Z.of_nat (S attempts) = 2 * 2 ^ Z.of_nat attempts)%Z)
    by (rewrite Nat2Z.inj_succ, Z.pow_succ_r by lia; done).
  split; [done|]. split; [|split; [|split]].
  - intros Hmax. apply andb_false_iff. right. apply Nat.ltb_ge. done.
  - intros [_ Hlt%Nat.ltb_lt]%andb_true_iff.
    assert (Hcases : attempts = 0 ∨ attempts = 1 ∨ attempts = 2 ∨ attempts = 3 ∨ attempts = 4)
      by lia.
    destruct Hcases as [-> | [-> | [-> | [-> | ->]]]]; by vm_compute.
  - lia.
  - rewrite Hsucc. lia.
Qed.
